(** * one-api relay: the AWS adaptor and the shared transport helpers

    A shallow embedding of [relay/channel/common.go] and
    [relay/adaptor/aws/main.go].  Pure Go functions are Rocq functions,
    fallible ones return a sum, and code with effects (provider calls,
    frames written to the client, log lines, bodies being closed) returns
    the list of effects it performed or threads the store it mutates. *)

From Stdlib Require Import ZArith String Ascii List Lia Bool.
From stdpp Require Import base option list strings gmap.
Import ListNotations.

Open Scope Z_scope.
Open Scope string_scope.
Open Scope list_scope.

(** ** Go primitives *)

Module Go.

(** Go's [int] on the 64-bit targets the relay is built for: a signed
    64-bit integer whose addition wraps around. *)
Definition int_min : Z := - 2 ^ 63.
Definition int_max : Z := 2 ^ 63 - 1.
Definition int_fits (z : Z) : Prop := int_min <= z <= int_max.
Definition int_wrap (z : Z) : Z := (z + 2 ^ 63) mod 2 ^ 64 - 2 ^ 63.
Definition int_add (a b : Z) : Z := int_wrap (a + b).

(** Error values.  [errors_New] and [errors_Wrap] are the constructors of
    the errors package the two files import; [lib_error] is an error
    handed back by a library call (SDK, JSON codec, copier, net/http). *)
Inductive error : Type :=
| errors_New (msg : string)
| errors_Wrap (cause : error) (msg : string)
| lib_error (descr : string).

(** [errors.Errorf(format, arg)] with a format ending in a single [%s]. *)
Definition errors_Errorf (prefix arg : string) : error :=
  errors_New (prefix +:+ arg).

(** [err.Error()]: a wrapped error prints its message, a colon and its
    cause. *)
Fixpoint Error (e : error) : string :=
  match e with
  | errors_New msg => msg
  | errors_Wrap cause msg => msg +:+ ": " +:+ Error cause
  | lib_error descr => descr
  end.

(** [strings.Split(s, sep)] for a one-byte separator: the pieces between
    the occurrences of [sep], one more piece than there are occurrences. *)
Fixpoint strings_Split (s : string) (sep : ascii) : list string :=
  match s with
  | EmptyString => [EmptyString]
  | String ch rest =>
      if Ascii.eqb ch sep then EmptyString :: strings_Split rest sep
      else match strings_Split rest sep with
           | piece :: pieces => String ch piece :: pieces
           | [] => [String ch EmptyString]
           end
  end.

(** The byte ["\n"]. *)
Definition newline : ascii := "010"%char.

(** [http.Header]: canonical header name to its values.  The names used by
    the source ([Content-Type], [Accept]) are already in canonical form, so
    canonicalisation is the identity on them. *)
Definition Header_Get (h : gmap string (list string)) (key : string) : string :=
  match h !! key with
  | Some (v :: _) => v
  | _ => ""
  end.

Definition Header_Set (h : gmap string (list string)) (key value : string)
  : gmap string (list string) :=
  <[key := [value]]> h.

End Go.

Import Go.

(** ** Package [channel] (relay/channel/common.go) *)

Module channel.

(** Request and response bodies live in a store that records which of them
    have been closed; a body is named by a handle, so that the outbound
    request and the inbound request may share one body. *)
Definition handle := nat.

Record http_Request := {
  Method : string;
  URL : string;
  Header : gmap string (list string);
  Body : option handle              (* nil for a request built without body *)
}.

Record http_Response := {
  StatusCode : Z;
  RespHeader : gmap string (list string);
  RespBody : handle
}.

(** The part of [gin.Context] this package reads. *)
Record Context := {
  Request : http_Request;
  InboundBody : handle              (* c.Request.Body, set by the server *)
}.

(** Modelled from the spec: the struct [util.RelayMeta] is declared outside
    the two source files; this package reads its stream flag. *)
Record RelayMeta := {
  IsStream : bool
}.

Definition Close (closed : gset handle) (h : handle) : gset handle :=
  {[h]} ∪ closed.

Definition SetupCommonRequestHeader (c : Context) (req : http_Request) (meta : RelayMeta)
  : http_Request :=
  let h1 := Header_Set (Header req) "Content-Type" (Header_Get (Header (Request c)) "Content-Type") in
  let h2 := Header_Set h1 "Accept" (Header_Get (Header (Request c)) "Accept") in
  let h3 := if IsStream meta && String.eqb (Header_Get (Header (Request c)) "Accept") ""
            then Header_Set h2 "Accept" "text/event-stream"
            else h2 in
  {| Method := Method req; URL := URL req; Header := h3; Body := Body req |}.

(** What a call of [DoRequest] leaves behind. *)
Inductive outcome (A : Type) : Type :=
| Returned (a : A)
| Panicked.                         (* nil dereference *)
Arguments Returned {A} a.
Arguments Panicked {A}.

Section Transport.

(** [util.HTTPClient.Do], the shared client of net/http: given the
    request and the store it answers with the pair (response, error) of
    nilable values, and it may itself close bodies. *)
Variable HTTPClient_Do :
  http_Request -> gset handle -> (option http_Response * option error) * gset handle.

Definition DoRequest (c : Context) (req : http_Request) (closed : gset handle)
  : outcome (option http_Response * option error) * gset handle :=
  let '((resp, err), closed) := HTTPClient_Do req closed in
  match err with
  | Some err => (Returned (None, Some err), closed)
  | None =>
      match resp with
      | None => (Returned (None, Some (errors_New "resp is nil")), closed)
      | Some resp =>
          match Body req with
          | None => (Panicked, closed)
          | Some body =>
              let closed := Close closed body in
              let closed := Close closed (InboundBody c) in
              (Returned (Some resp, None), closed)
          end
      end
  end.

End Transport.

(** The interface [Adaptor] of the package, as far as [DoRequestHelper]
    uses it: two of its methods.  [GetRequestURL] answers with the pair
    (url, error); [SetupRequestHeader] may change the headers of the request
    it is given and answers with an error or nil. *)
Class Adaptor : Type := {
  GetRequestURL : RelayMeta -> string * option error;
  SetupRequestHeader : Context -> http_Request -> RelayMeta -> http_Request * option error
}.

Section Helper.

Variable HTTPClient_Do :
  http_Request -> gset handle -> (option http_Response * option error) * gset handle.

(** What net/http objects to in a method name and in a URL, if anything. *)
Variable method_error : string -> option error.
Variable url_Parse_error : string -> option error.

(** [http.NewRequest(method, url, body)]: an empty method means GET; the
    request starts with no header and has the given body ([None] for a nil
    reader; for a reader that is no closer, the handle of its no-op
    closer). *)
Definition http_NewRequest (method url : string) (body : option handle)
  : error + http_Request :=
  let method := if String.eqb method "" then "GET" else method in
  match method_error method with
  | Some err => inl err
  | None =>
      match url_Parse_error url with
      | Some err => inl err
      | None => inr {| Method := method; URL := url; Header := ∅; Body := body |}
      end
  end.

Definition DoRequestHelper (a : Adaptor) (c : Context) (meta : RelayMeta)
           (requestBody : option handle) (closed : gset handle)
  : outcome (option http_Response * option error) * gset handle :=
  match GetRequestURL meta with
  | (_, Some err) =>
      (Returned (None, Some (errors_Wrap err "get request url failed")), closed)
  | (fullRequestURL, None) =>
      match http_NewRequest (Method (Request c)) fullRequestURL requestBody with
      | inl err => (Returned (None, Some (errors_Wrap err "new request failed")), closed)
      | inr req =>
          match SetupRequestHeader c req meta with
          | (_, Some err) =>
              (Returned (None, Some (errors_Wrap err "setup request header failed")), closed)
          | (req, None) =>
              match DoRequest HTTPClient_Do c req closed with
              | (Returned (_, Some err), closed) =>
                  (Returned (None, Some (errors_Wrap err "do request failed")), closed)
              | (Returned (resp, None), closed) => (Returned (resp, None), closed)
              | (Panicked, closed) => (Panicked, closed)
              end
          end
      end
  end.

End Helper.

End channel.

(** ** Declarations the adaptor imports from outside the two files *)

(** Types and constants that [main.go] names but that are declared in other
    packages: they are parameters of the development. *)
Class Decls : Type := {
  anthropic_Request : Type;           (* anthropic.Request *)
  anthropic_StreamResponse : Type;    (* anthropic.StreamResponse *)
  anthropic_ResponseRest : Type;      (* fields of anthropic.Response main.go does not touch *)
  openai_ChunkRest : Type;            (* fields of the stream chunk main.go does not touch *)
  openai_TextRest : Type;             (* fields of the unary response main.go does not touch *)
  aws_RequestRest : Type;             (* fields of aws.Request besides AnthropicVersion *)
  aws_RequestRest_zero : aws_RequestRest;
  CtxKeyChannel : string;
  CtxKeyRequestModel : string;
  CtxKeyConvertedRequest : string;
  CtxKeyOriginModel : string
}.

Module relaymodel.

(** Modelled from the spec: the struct [relaymodel.Usage] is declared
    outside the two source files; it is the triple of prompt, completion and
    total token counts, three Go [int]s. *)
Record Usage := {
  PromptTokens : Z;
  CompletionTokens : Z;
  TotalTokens : Z
}.

(** The zero value of [Usage], what [var usage relaymodel.Usage] holds. *)
Definition Usage_zero : Usage :=
  {| PromptTokens := 0; CompletionTokens := 0; TotalTokens := 0 |}.

(** Modelled from the spec: the structs [relaymodel.Error] and
    [relaymodel.ErrorWithStatusCode] are declared outside the two source
    files; [main.go] fills the message and the status code. *)
Record Error := {
  Message : string
}.

Record ErrorWithStatusCode := {
  Error_ : Error;
  StatusCode : Z
}.

End relaymodel.

Module anthropic.

(** Modelled from the spec: the struct [anthropic.Usage] is declared outside
    the two source files; [main.go] reads its two counters. *)
Record Usage := {
  InputTokens : Z;
  OutputTokens : Z
}.

Section Types.
Context {D : Decls}.

(** Modelled from the spec: the struct [anthropic.Response] is declared
    outside the two source files; these are the fields [main.go] reads
    (the provider-assigned identifier, the provider's model name and the
    usage counters), the others stay abstract. *)
Record Response := {
  Id : string;
  Model : string;
  Usage_ : Usage;
  Rest : anthropic_ResponseRest
}.
End Types.

End anthropic.

Module openai.

Section Types.
Context {D : Decls}.

(** Modelled from the spec: the stream chunk struct is declared outside
    the two source files; [main.go] writes its identifier, model name and
    creation time, the other fields stay abstract. *)
Record ChatCompletionsStreamResponse := {
  Id : string;
  Created : Z;
  Model : string;
  Rest : openai_ChunkRest
}.

(** Modelled from the spec: the unary response struct is declared outside
    the two source files; [main.go] writes its model name and usage. *)
Record TextResponse := {
  TModel : string;
  TUsage : relaymodel.Usage;
  TRest : openai_TextRest
}.
End Types.

End openai.

(** ** Package [aws] (relay/adaptor/aws/main.go): data *)

Module aws.

Section Data.
Context {D : Decls}.

(** Modelled from the spec: the struct [model.Channel] is declared outside
    the two source files; [main.go] reads the stored secret [Key] and the
    region [BaseURL], a pointer to a string that may be nil. *)
Record Channel := {
  Key : string;
  BaseURL : option string
}.

(** What [bedrockruntime.New] is given. *)
Record Client := {
  Region : string;
  AccessKeyID : string;
  SecretAccessKey : string;
  SessionToken : string
}.

(** Modelled from the spec: the struct [Request] of package [aws] is declared
    outside the two source files; it is the fixed protocol version string
    and the fields copied from the converted request. *)
Record Request := {
  AnthropicVersion : string;
  Fields : aws_RequestRest
}.

Record InvokeModelInput := {
  ModelId : string;
  Accept : string;
  ContentType : string;
  Body : list Byte.byte
}.

Record InvokeModelWithResponseStreamInput := {
  SModelId : string;
  SAccept : string;
  SContentType : string;
  SBody : list Byte.byte
}.

(** [types.ResponseStream], the union of native stream events. *)
Inductive ResponseStream : Type :=
| ResponseStreamMemberChunk (Bytes : list Byte.byte)
| UnknownUnionMember (Tag : string)
| OtherMember.                    (* nil, or a member type the switch does not list *)

(** Values stored under the keys of the gin context. *)
Inductive any : Type :=
| any_Channel (ch : Channel)
| any_Request (r : anthropic_Request)
| any_string (s : string)
| any_other.

(** The part of [gin.Context] the adaptor reads.  [ClientGone] is the
    number of times [c.Stream] runs its step before it sees the client
    gone ([None]: the client stays). *)
Record Context := {
  Keys : gmap string any;
  ClientGone : option nat
}.

Definition c_Get (c : Context) (key : string) : option any := Keys c !! key.

Definition c_GetString (c : Context) (key : string) : string :=
  match Keys c !! key with
  | Some (any_string s) => s
  | _ => ""
  end.

(** Everything the handlers do to the outside world, in order. *)
Inductive effect : Type :=
| Call_InvokeModel (cli : Client) (input : InvokeModelInput)
| Call_InvokeModelWithResponseStream (cli : Client) (input : InvokeModelWithResponseStreamInput)
| Stream_Close
| Writer_Header_Set (key value : string)
| JSON (status : Z) (resp : openai.TextResponse)
| RenderChunk (chunk : openai.ChatCompletionsStreamResponse) (jsonStr : string)
| RenderDone
| SysError (msg : string)
| Println (operands : list string).

(** The [Data] of the [common.CustomEvent] a render writes to the client. *)
Definition Data (e : effect) : option string :=
  match e with
  | RenderChunk _ jsonStr => Some ("data: " +:+ jsonStr)
  | RenderDone => Some "data: [DONE]"
  | _ => None
  end.

(** A Go value that may instead be a run-time panic. *)
Inductive go (A : Type) : Type :=
| Val (a : A)
| Panics.

(** What a handler hands back: the pair (error, usage) of nilable
    pointers, unless it panicked. *)
Inductive result : Type :=
| Returned (err : option relaymodel.ErrorWithStatusCode) (usage : option relaymodel.Usage)
| Panicked.

(** Handler bodies: the effects so far and either the value to go on with
    or the result of a [return] already taken. *)
Definition M (A : Type) : Type := list effect * (A + result).

Definition ret {A} (a : A) : M A := ([], inl a).
Definition Return {A} (r : result) : M A := ([], inr r).
Definition perform (e : effect) : M unit := ([e], inl tt).
Definition bind {A B} (m : M A) (k : A -> M B) : M B :=
  match m with
  | (fx, inl a) => let '(fx', r) := k a in (fx ++ fx', r)
  | (fx, inr r) => (fx, inr r)
  end.
Definition lift_go {A} (g : go A) : M A :=
  match g with
  | Val _ a => ret a
  | Panics _ => Return Panicked
  end.
(** [defer]: the effect runs when the rest of the body is left. *)
Definition defer {A} (e : effect) (m : M A) : M A :=
  let '(fx, r) := m in (fx ++ [e], r).
Definition run (m : M result) : list effect * result :=
  match m with
  | (fx, inl r) => (fx, r)
  | (fx, inr r) => (fx, r)
  end.

End Data.

Arguments Val {A} a.
Arguments Panics {A}.

Notation "x <- m ;; k" := (bind m (fun x => k))
  (at level 100, m at next level, right associativity, only parsing).
Notation "m ;;; k" := (bind m (fun _ => k))
  (at level 100, right associativity, only parsing).

(** ** Package [aws]: the collaborators *)

(** Functions of other packages and of libraries that the two handlers
    call.  Fallible ones answer with [inl] of their error. *)
Class Collaborators {D : Decls} : Type := {
  (* helper.GetTimestamp(): the clock reading when the handler starts *)
  helper_GetTimestamp : Z;
  (* fmt.Sprintf("%+v", err) *)
  fmt_Sprintf_v : error -> string;
  (* copier.Copy(to, from) *)
  copier_Copy : Request -> anthropic_Request -> error + Request;
  (* json.Marshal of the native request *)
  json_Marshal_Request : Request -> error + list Byte.byte;
  (* awsCli.InvokeModel: the body of the native response *)
  InvokeModel : Client -> InvokeModelInput -> error + list Byte.byte;
  (* json.Unmarshal into an anthropic.Response *)
  json_Unmarshal_Response : list Byte.byte -> error + anthropic.Response;
  (* anthropic.ResponseClaude2OpenAI *)
  ResponseClaude2OpenAI : anthropic.Response -> openai.TextResponse;
  (* awsCli.InvokeModelWithResponseStream: the events the stream's channel
     delivers before it is closed *)
  InvokeModelWithResponseStream :
    Client -> InvokeModelWithResponseStreamInput -> error + list ResponseStream;
  (* json.NewDecoder(...).Decode into an anthropic.StreamResponse *)
  json_Decode_StreamResponse : list Byte.byte -> error + anthropic_StreamResponse;
  (* anthropic.StreamResponseClaude2OpenAI: two nilable pointers *)
  StreamResponseClaude2OpenAI :
    anthropic_StreamResponse ->
    option openai.ChatCompletionsStreamResponse * option anthropic.Response;
  (* json.Marshal of a stream chunk *)
  json_Marshal_Chunk : openai.ChatCompletionsStreamResponse -> error + string
}.

(** ** Package [aws]: the code *)

Section Code.
Context {D : Decls} {X : Collaborators}.

Definition newAwsClient (channel : Channel) : go (option Client * option error) :=
  let ks := strings_Split (Key channel) newline in
  if negb (Nat.eqb (length ks) 2) then Val (None, Some (errors_New "invalid key"))
  else
    match ks with
    | ak :: sk :: _ =>
        match BaseURL channel with
        | None => Panics          (* *channel.BaseURL on a nil pointer *)
        | Some region =>
            Val (Some {| Region := region; AccessKeyID := ak;
                         SecretAccessKey := sk; SessionToken := "" |}, None)
        end
    | _ => Panics                 (* index out of range; excluded by the test above *)
    end.

Definition wrapErr (err : error) : relaymodel.ErrorWithStatusCode :=
  {| relaymodel.StatusCode := 500;
     relaymodel.Error_ := {| relaymodel.Message := fmt_Sprintf_v err |} |}.

Definition awsModelID (requestModel : string) : string * option error :=
  if String.eqb requestModel "claude-instant-1.2" then
    ("anthropic.claude-instant-v1", None)
  else if String.eqb requestModel "claude-2.0" then
    ("anthropic.claude-v2", None)
  else if String.eqb requestModel "claude-2.1" then
    ("anthropic.claude-v2:1", None)
  else if String.eqb requestModel "claude-3-sonnet-20240229" then
    ("anthropic.claude-3-sonnet-20240229-v1:0", None)
  else if String.eqb requestModel "claude-3-opus-20240229" then
    ("anthropic.claude-3-opus-20240229-v1:0", None)
  else if String.eqb requestModel "claude-3-haiku-20240307" then
    ("anthropic.claude-3-haiku-20240307-v1:0", None)
  else
    ("", Some (errors_Errorf "unknown model: " requestModel)).

(** The type assertions to a pointer to [model.Channel] and to a pointer
    to [anthropic.Request]: a panic when the dynamic type is another one. *)
Definition assert_Channel (x : any) : go Channel :=
  match x with any_Channel ch => Val ch | _ => Panics end.
Definition assert_Request (x : any) : go anthropic_Request :=
  match x with any_Request r => Val r | _ => Panics end.

Definition Handler (c : Context) (resp : channel.http_Response)
           (promptTokens : Z) (modelName : string) : list effect * result :=
  run (
    channel <- match c_Get c CtxKeyChannel with
               | None => Return (Returned (Some (wrapErr (errors_New "channel not found"))) None)
               | Some channeli => lift_go (assert_Channel channeli)
               end ;;
    r <- lift_go (newAwsClient channel) ;;
    awsCli <- match r with
              | (_, Some err) =>
                  Return (Returned (Some (wrapErr (errors_Wrap err "newAwsClient"))) None)
              | (Some awsCli, None) => ret awsCli
              | (None, None) => Return Panicked
              end ;;
    awsModelId <- match awsModelID (c_GetString c CtxKeyRequestModel) with
                  | (_, Some err) =>
                      Return (Returned (Some (wrapErr (errors_Wrap err "awsModelID"))) None)
                  | (awsModelId, None) => ret awsModelId
                  end ;;
    let awsReq := {| ModelId := awsModelId; Accept := "application/json";
                     ContentType := "application/json"; Body := [] |} in
    claudeReq <- match c_Get c CtxKeyConvertedRequest with
                 | None => Return (Returned (Some (wrapErr (errors_New "request not found"))) None)
                 | Some claudeReqi => lift_go (assert_Request claudeReqi)
                 end ;;
    awsClaudeReq <- match copier_Copy {| AnthropicVersion := "bedrock-2023-05-31";
                                         Fields := aws_RequestRest_zero |} claudeReq with
                    | inl err => Return (Returned (Some (wrapErr (errors_Wrap err "copy request"))) None)
                    | inr awsClaudeReq => ret awsClaudeReq
                    end ;;
    body <- match json_Marshal_Request awsClaudeReq with
            | inl err => Return (Returned (Some (wrapErr (errors_Wrap err "marshal request"))) None)
            | inr body => ret body
            end ;;
    let awsReq := {| ModelId := ModelId awsReq; Accept := Accept awsReq;
                     ContentType := ContentType awsReq; Body := body |} in
    perform (Call_InvokeModel awsCli awsReq) ;;;
    awsResp <- match InvokeModel awsCli awsReq with
               | inl err => Return (Returned (Some (wrapErr (errors_Wrap err "InvokeModel"))) None)
               | inr awsResp => ret awsResp
               end ;;
    claudeResponse <- match json_Unmarshal_Response awsResp with
                      | inl err =>
                          Return (Returned (Some (wrapErr (errors_Wrap err "unmarshal response"))) None)
                      | inr claudeResponse => ret claudeResponse
                      end ;;
    let openaiResp := ResponseClaude2OpenAI claudeResponse in
    let usage :=
      {| relaymodel.PromptTokens := anthropic.InputTokens (anthropic.Usage_ claudeResponse);
         relaymodel.CompletionTokens := anthropic.OutputTokens (anthropic.Usage_ claudeResponse);
         relaymodel.TotalTokens :=
           int_add (anthropic.InputTokens (anthropic.Usage_ claudeResponse))
                   (anthropic.OutputTokens (anthropic.Usage_ claudeResponse)) |} in
    let openaiResp := {| openai.TModel := modelName; openai.TUsage := usage;
                         openai.TRest := openai.TRest openaiResp |} in
    perform (JSON 200 openaiResp) ;;;
    ret (Returned None (Some usage))).

(** The two variables the step closure of [StreamHandler] captures and
    updates. *)
Record pump := {
  usage : relaymodel.Usage;
  id : string
}.

(** The closure handed to [c.Stream]: [recv] is what the receive from
    [stream.Events()] gave ([None] once the channel is closed); the
    answer is the updated variables, the effects and the closure's
    boolean. *)
Definition step (c : Context) (createdTime : Z) (st : pump) (recv : option ResponseStream)
  : pump * list effect * bool :=
  match recv with
  | None => (st, [RenderDone], false)
  | Some (ResponseStreamMemberChunk bytes) =>
      match json_Decode_StreamResponse bytes with
      | inl err =>
          (st, [SysError ("error unmarshalling stream response: " +:+ Error err)], false)
      | inr claudeResp =>
          match StreamResponseClaude2OpenAI claudeResp with
          | (_, Some meta) =>
              ({| usage :=
                    {| relaymodel.PromptTokens :=
                         int_add (relaymodel.PromptTokens (usage st))
                                 (anthropic.InputTokens (anthropic.Usage_ meta));
                       relaymodel.CompletionTokens :=
                         int_add (relaymodel.CompletionTokens (usage st))
                                 (anthropic.OutputTokens (anthropic.Usage_ meta));
                       relaymodel.TotalTokens := relaymodel.TotalTokens (usage st) |};
                  id := "chatcmpl-" +:+ anthropic.Id meta |}, [], true)
          | (None, None) => (st, [], true)
          | (Some response, None) =>
              let response :=
                {| openai.Id := id st;
                   openai.Model := c_GetString c CtxKeyOriginModel;
                   openai.Created := createdTime;
                   openai.Rest := openai.Rest response |} in
              match json_Marshal_Chunk response with
              | inl err =>
                  (st, [SysError ("error marshalling stream response: " +:+ Error err)], true)
              | inr jsonStr => (st, [RenderChunk response jsonStr], true)
              end
          end
      end
  | Some (UnknownUnionMember tag) => (st, [Println ["unknown tag:"; tag]], false)
  | Some OtherMember => (st, [Println ["union is nil or unknown type"]], false)
  end.

(** [c.Stream(step)] of gin, on the closure [step]: until the client is
    gone, run the step (and flush) and stop when it answers false.
    [events] are the events still to come on the stream's channel, which is
    closed after them; on the closed channel the step answers false, so the
    loop ends there. *)
Fixpoint c_Stream (c : Context) (createdTime : Z) (gone : option nat)
         (events : list ResponseStream) (st : pump) : list effect * pump :=
  match gone with
  | Some O => ([], st)
  | _ =>
      match events with
      | [] => let '(st, fx, _) := step c createdTime st None in (fx, st)
      | event :: events =>
          let '(st, fx, keepOpen) := step c createdTime st (Some event) in
          if keepOpen then
            let '(fx', st) := c_Stream c createdTime (Nat.pred <$> gone) events st in
            (fx ++ fx', st)
          else (fx, st)
      end
  end.

Definition StreamHandler (c : Context) (resp : channel.http_Response)
  : list effect * result :=
  run (
    let createdTime := helper_GetTimestamp in
    channel <- match c_Get c CtxKeyChannel with
               | None => Return (Returned (Some (wrapErr (errors_New "channel not found"))) None)
               | Some channeli => lift_go (assert_Channel channeli)
               end ;;
    r <- lift_go (newAwsClient channel) ;;
    awsCli <- match r with
              | (_, Some err) =>
                  Return (Returned (Some (wrapErr (errors_Wrap err "newAwsClient"))) None)
              | (Some awsCli, None) => ret awsCli
              | (None, None) => Return Panicked
              end ;;
    awsModelId <- match awsModelID (c_GetString c CtxKeyRequestModel) with
                  | (_, Some err) =>
                      Return (Returned (Some (wrapErr (errors_Wrap err "awsModelID"))) None)
                  | (awsModelId, None) => ret awsModelId
                  end ;;
    let awsReq := {| SModelId := awsModelId; SAccept := "application/json";
                     SContentType := "application/json"; SBody := [] |} in
    claudeReq <- match c_Get c CtxKeyConvertedRequest with
                 | None => Return (Returned (Some (wrapErr (errors_New "request not found"))) None)
                 | Some claudeReqi => lift_go (assert_Request claudeReqi)
                 end ;;
    awsClaudeReq <- match copier_Copy {| AnthropicVersion := "bedrock-2023-05-31";
                                         Fields := aws_RequestRest_zero |} claudeReq with
                    | inl err => Return (Returned (Some (wrapErr (errors_Wrap err "copy request"))) None)
                    | inr awsClaudeReq => ret awsClaudeReq
                    end ;;
    body <- match json_Marshal_Request awsClaudeReq with
            | inl err => Return (Returned (Some (wrapErr (errors_Wrap err "marshal request"))) None)
            | inr body => ret body
            end ;;
    let awsReq := {| SModelId := SModelId awsReq; SAccept := SAccept awsReq;
                     SContentType := SContentType awsReq; SBody := body |} in
    perform (Call_InvokeModelWithResponseStream awsCli awsReq) ;;;
    stream <- match InvokeModelWithResponseStream awsCli awsReq with
              | inl err =>
                  Return (Returned (Some (wrapErr (errors_Wrap err "InvokeModelWithResponseStream")))
                                   None)
              | inr stream => ret stream
              end ;;
    defer Stream_Close (
      perform (Writer_Header_Set "Content-Type" "text/event-stream") ;;;
      let st := {| usage := relaymodel.Usage_zero; id := "" |} in
      let '(fx, st) := c_Stream c createdTime (ClientGone c) stream st in
      (fx, inl tt) ;;;
      ret (Returned None (Some (usage st))))).

End Code.

End aws.

(** ** Vocabulary of the statements *)

(** Number of occurrences of a byte in a string. *)
Fixpoint occurrences (sep : ascii) (s : string) : nat :=
  match s with
  | EmptyString => O
  | String ch rest => if Ascii.eqb ch sep then S (occurrences sep rest) else occurrences sep rest
  end.

(** [strings.Join(pieces, sep)] for a one-byte separator. *)
Fixpoint strings_Join (pieces : list string) (sep : ascii) : string :=
  match pieces with
  | [] => EmptyString
  | [piece] => piece
  | piece :: pieces => piece +:+ String sep (strings_Join pieces sep)
  end.

(** A Go pair (value, error) of which exactly one component is non-nil. *)
Definition one_of {A B : Type} (r : option A * option B) : Prop :=
  match r with
  | (Some _, None) | (None, Some _) => True
  | _ => False
  end.

(** The four messages [DoRequestHelper] wraps a failure with. *)
Definition stage_messages : list string :=
  ["get request url failed"; "new request failed"; "setup request header failed";
   "do request failed"].

Module aws_spec.
Import aws.

(** The static table of recognised model names and their native
    identifiers. *)
Definition awsModelTable : list (string * string) :=
  [ ("claude-instant-1.2", "anthropic.claude-instant-v1");
    ("claude-2.0", "anthropic.claude-v2");
    ("claude-2.1", "anthropic.claude-v2:1");
    ("claude-3-sonnet-20240229", "anthropic.claude-3-sonnet-20240229-v1:0");
    ("claude-3-opus-20240229", "anthropic.claude-3-opus-20240229-v1:0");
    ("claude-3-haiku-20240307", "anthropic.claude-3-haiku-20240307-v1:0") ].

Fixpoint table_lookup (name : string) (table : list (string * string)) : option string :=
  match table with
  | [] => None
  | (key, native) :: table => if String.eqb name key then Some native else table_lookup name table
  end.

(** A handler that did not succeed: it returned an error and no usage, or
    it panicked. *)
Definition failed (r : result) : Prop :=
  match r with
  | Returned (Some _) None => True
  | Panicked => True
  | _ => False
  end.

(** The [Data] strings written to the client, in order. *)
Fixpoint wire {D : Decls} (fx : list effect) : list string :=
  match fx with
  | [] => []
  | e :: fx =>
      match Data e with
      | Some data => data :: wire fx
      | None => wire fx
      end
  end.

(** The effects of the stream loop: frames, the terminator and log lines. *)
Definition loop_effect {D : Decls} (e : effect) : Prop :=
  match e with
  | RenderChunk _ _ | RenderDone | SysError _ | Println _ => True
  | _ => False
  end.

Definition is_frame {D : Decls} (e : effect) : bool :=
  match e with
  | RenderChunk _ _ => true
  | _ => false
  end.

(** A handler result with exactly one of error and usage, the error under
    status 500. *)
Definition well_formed (r : result) : Prop :=
  match r with
  | Returned (Some e) None => relaymodel.StatusCode e = 500
  | Returned None (Some _) => True
  | Returned _ _ => False
  | Panicked => True
  end.

(** The client is still connected after [n] steps of the stream loop. *)
Definition client_stays (gone : option nat) (n : nat) : Prop :=
  match gone with
  | None => True
  | Some g => (n < g)%nat
  end.

Section Vocabulary.
Context {D : Decls} {X : Collaborators}.

(** The metadata a native event carries, when it decodes to an event with
    metadata. *)
Definition metadata_of (event : ResponseStream) : option anthropic.Response :=
  match event with
  | ResponseStreamMemberChunk bytes =>
      match json_Decode_StreamResponse bytes with
      | inr claudeResp => snd (StreamResponseClaude2OpenAI claudeResp)
      | inl _ => None
      end
  | _ => None
  end.

(** An event after which the pump goes on: a chunk member that decodes.  The
    others (decode failure, unknown tag, nil or unlisted member) end it. *)
Definition keeps_open (event : ResponseStream) : bool :=
  match event with
  | ResponseStreamMemberChunk bytes =>
      match json_Decode_StreamResponse bytes with
      | inr _ => true
      | inl _ => false
      end
  | _ => false
  end.

(** The events the pump pulls from the channel before it exits: those before
    the client is gone, up to and including the first one that ends it. *)
Fixpoint observed (gone : option nat) (events : list ResponseStream) : list ResponseStream :=
  match gone with
  | Some O => []
  | _ =>
      match events with
      | [] => []
      | event :: events =>
          if keeps_open event then event :: observed (Nat.pred <$> gone) events else [event]
      end
  end.

(** Sum, over the metadata-bearing events, of one of the two usage deltas. *)
Fixpoint sum_tokens (delta : anthropic.Usage -> Z) (events : list ResponseStream) : Z :=
  match events with
  | [] => 0
  | event :: events =>
      match metadata_of event with
      | Some meta => delta (anthropic.Usage_ meta) + sum_tokens delta events
      | None => sum_tokens delta events
      end
  end.

(** The identifier in force after the events [pre]: the one of the latest
    metadata event, the empty string when there was none. *)
Fixpoint captured_id_from (id : string) (pre : list ResponseStream) : string :=
  match pre with
  | [] => id
  | event :: pre =>
      captured_id_from (match metadata_of event with
                        | Some meta => "chatcmpl-" +:+ anthropic.Id meta
                        | None => id
                        end) pre
  end.

Definition captured_id (pre : list ResponseStream) : string := captured_id_from "" pre.

(** The usage counters the pump holds after the events [events]: the sums
    of the deltas in Go's wrapping arithmetic; the total is never written. *)
Definition accumulated (events : list ResponseStream) : relaymodel.Usage :=
  {| relaymodel.PromptTokens := int_wrap (sum_tokens anthropic.InputTokens events);
     relaymodel.CompletionTokens := int_wrap (sum_tokens anthropic.OutputTokens events);
     relaymodel.TotalTokens := 0 |}.

(** What the stream loop has done when it has pulled exactly the events
    [pre]: the loop cut, by the client leaving, after that many steps. *)
Definition pump_prefix (c : Context) (createdTime : Z) (pre : list ResponseStream) (st : pump)
  : list effect * pump :=
  c_Stream c createdTime (Some (length pre)) pre st.

(** The pump observes the closure of the channel: every event keeps it open
    and the client stays until then. *)
Definition closes_normally (gone : option nat) (script : list ResponseStream) : Prop :=
  Forall (fun event => keeps_open event = true) script /\ client_stays gone (length script).

(** The steps of a handler before its provider call all succeed, and the
    call is made by [cli] with the model identifier and body the handler
    built. *)
Definition builds_request (c : Context) (cli : Client) (modelId : string) (body : list Byte.byte)
  : Prop :=
  exists channel claudeReq awsClaudeReq,
    c_Get c CtxKeyChannel = Some (any_Channel channel)
    /\ newAwsClient channel = Val (Some cli, None)
    /\ awsModelID (c_GetString c CtxKeyRequestModel) = (modelId, None)
    /\ c_Get c CtxKeyConvertedRequest = Some (any_Request claudeReq)
    /\ copier_Copy {| AnthropicVersion := "bedrock-2023-05-31";
                      Fields := aws_RequestRest_zero |} claudeReq = inr awsClaudeReq
    /\ json_Marshal_Request awsClaudeReq = inr body.

(** [StreamHandler] on [c] gets as far as the stream loop: the provider
    answers the call [input] of [cli] with a stream delivering [script]. *)
Definition obtains_stream (c : Context) (cli : Client)
           (input : InvokeModelWithResponseStreamInput) (script : list ResponseStream) : Prop :=
  builds_request c cli (SModelId input) (SBody input)
  /\ SAccept input = "application/json" /\ SContentType input = "application/json"
  /\ InvokeModelWithResponseStream cli input = inr script.

(** [Handler] on [c] gets as far as the translation: the provider answers
    the call [input] of [cli] with a body that decodes to [claudeResponse]. *)
Definition obtains_response (c : Context) (cli : Client) (input : InvokeModelInput)
           (claudeResponse : anthropic.Response) : Prop :=
  builds_request c cli (ModelId input) (Body input)
  /\ Accept input = "application/json" /\ ContentType input = "application/json"
  /\ exists awsResp, InvokeModel cli input = inr awsResp
                     /\ json_Unmarshal_Response awsResp = inr claudeResponse.

(** An event that can give a frame: it keeps the loop open and carries no
    metadata. *)
Definition may_render (event : ResponseStream) : bool :=
  keeps_open event && match metadata_of event with None => true | Some _ => false end.

(** What one step of the stream loop does on an event, case by case. *)
Inductive step_case (c : Context) (createdTime : Z) (st : pump) (event : ResponseStream)
  : pump * list effect * bool -> Prop :=
| step_abort (log : effect) :
    keeps_open event = false -> metadata_of event = None ->
    Data log = None ->
    step_case c createdTime st event (st, [log], false)
| step_metadata (meta : anthropic.Response) :
    keeps_open event = true -> metadata_of event = Some meta ->
    step_case c createdTime st event
      ({| usage :=
            {| relaymodel.PromptTokens :=
                 int_add (relaymodel.PromptTokens (usage st))
                         (anthropic.InputTokens (anthropic.Usage_ meta));
               relaymodel.CompletionTokens :=
                 int_add (relaymodel.CompletionTokens (usage st))
                         (anthropic.OutputTokens (anthropic.Usage_ meta));
               relaymodel.TotalTokens := relaymodel.TotalTokens (usage st) |};
          id := "chatcmpl-" +:+ anthropic.Id meta |}, [], true)
| step_empty :
    keeps_open event = true -> metadata_of event = None ->
    step_case c createdTime st event (st, [], true)
| step_frame (bytes : list Byte.byte) (claudeResp : anthropic_StreamResponse)
             (response : openai.ChatCompletionsStreamResponse) (jsonStr : string) :
    keeps_open event = true -> metadata_of event = None ->
    event = ResponseStreamMemberChunk bytes ->
    json_Decode_StreamResponse bytes = inr claudeResp ->
    StreamResponseClaude2OpenAI claudeResp = (Some response, None) ->
    let chunk := {| openai.Id := id st;
                    openai.Model := c_GetString c CtxKeyOriginModel;
                    openai.Created := createdTime;
                    openai.Rest := openai.Rest response |} in
    json_Marshal_Chunk chunk = inr jsonStr ->
    step_case c createdTime st event (st, [RenderChunk chunk jsonStr], true)
| step_skipped (msg : string) :
    keeps_open event = true -> metadata_of event = None ->
    step_case c createdTime st event (st, [SysError msg], true).

End Vocabulary.

End aws_spec.

(** ** A sample instantiation of the outside declarations

    Used to run the handlers on concrete inputs.  A native chunk whose first
    byte is [m] decodes to a metadata event (next two bytes: input and output
    token counts, then the identifier), one whose first byte is [e] to an
    empty event, an empty payload fails to decode, anything else is a content
    chunk.  A chunk whose content is [?] cannot be marshalled. *)

Module Sample.
Import aws.

Definition decls : Decls := {|
  anthropic_Request := string;
  anthropic_StreamResponse := list Byte.byte;
  anthropic_ResponseRest := unit;
  openai_ChunkRest := string;
  openai_TextRest := string;
  aws_RequestRest := string;
  aws_RequestRest_zero := "";
  CtxKeyChannel := "channel";
  CtxKeyRequestModel := "request_model";
  CtxKeyConvertedRequest := "converted_request";
  CtxKeyOriginModel := "origin_model"
|}.

#[local] Existing Instance decls.

Definition tokens (b : Byte.byte) : Z := Z.of_N (Byte.to_N b).

Definition convert (payload : list Byte.byte)
  : option openai.ChatCompletionsStreamResponse * option anthropic.Response :=
  match payload with
  | Byte.x6d :: i :: o :: ident =>
      (None, Some {| anthropic.Id := string_of_list_byte ident;
                     anthropic.Model := "anthropic.claude-v2";
                     anthropic.Usage_ := {| anthropic.InputTokens := tokens i;
                                            anthropic.OutputTokens := tokens o |};
                     anthropic.Rest := tt |})
  | Byte.x65 :: _ => (None, None)
  | _ => (Some {| openai.Id := ""; openai.Created := 0; openai.Model := "";
                  openai.Rest := string_of_list_byte payload |}, None)
  end.

Definition marshal (chunk : openai.ChatCompletionsStreamResponse) : error + string :=
  if String.eqb (openai.Rest chunk) "?" then inl (lib_error "json: unsupported value")
  else inr ("{" +:+ openai.Id chunk +:+ "," +:+ openai.Model chunk +:+ ","
                +:+ openai.Rest chunk +:+ "}").

(** The provider answers every unary call with [unary] and every streaming
    call with the events [script]. *)
Definition collaborators (unary : anthropic.Response) (script : list ResponseStream)
  : Collaborators := {|
  helper_GetTimestamp := 1700000000;
  fmt_Sprintf_v := Error;
  copier_Copy := fun to from =>
    inr {| AnthropicVersion := AnthropicVersion to; Fields := from |};
  json_Marshal_Request := fun r => inr (list_byte_of_string (Fields r));
  InvokeModel := fun _ _ => inr [];
  json_Unmarshal_Response := fun _ => inr unary;
  ResponseClaude2OpenAI := fun r =>
    {| openai.TModel := anthropic.Model r;
       openai.TUsage := relaymodel.Usage_zero;
       openai.TRest := "text" |};
  InvokeModelWithResponseStream := fun _ _ => inr script;
  json_Decode_StreamResponse := fun payload =>
    match payload with
    | [] => inl (lib_error "EOF")
    | _ => inr payload
    end;
  StreamResponseClaude2OpenAI := convert;
  json_Marshal_Chunk := marshal
|}.

Definition metadata (i o : Byte.byte) (ident : string) : ResponseStream :=
  ResponseStreamMemberChunk (Byte.x6d :: i :: o :: list_byte_of_string ident).
Definition content (text : string) : ResponseStream :=
  ResponseStreamMemberChunk (list_byte_of_string text).

Definition context (key model : string) (gone : option nat) : Context := {|
  Keys := <[CtxKeyChannel := any_Channel {| Key := key; BaseURL := Some "us-east-1" |}]>
          (<[CtxKeyRequestModel := any_string model]>
           (<[CtxKeyConvertedRequest := any_Request "hello"]>
            (<[CtxKeyOriginModel := any_string "my-model"]> ∅)));
  ClientGone := gone
|}.

Definition good_key : string := "AKIA" +:+ String newline "secret".

Definition response : channel.http_Response :=
  {| channel.StatusCode := 200; channel.RespHeader := ∅; channel.RespBody := 0%nat |}.

(** The native unary response of the runs below: 10 input tokens, 5 output
    tokens, and the provider's own model name. *)
Definition unary : anthropic.Response :=
  {| anthropic.Id := "msg_1"; anthropic.Model := "anthropic.claude-v2";
     anthropic.Usage_ := {| anthropic.InputTokens := 10; anthropic.OutputTokens := 5 |};
     anthropic.Rest := tt |}.

(** The client and the two inputs the handlers build from a context with
    [good_key] and the model name [claude-2.1]. *)
Definition client : Client :=
  {| Region := "us-east-1"; AccessKeyID := "AKIA"; SecretAccessKey := "secret";
     SessionToken := "" |}.
Definition unary_input : InvokeModelInput :=
  {| ModelId := "anthropic.claude-v2:1"; Accept := "application/json";
     ContentType := "application/json"; Body := list_byte_of_string "hello" |}.
Definition stream_input : InvokeModelWithResponseStreamInput :=
  {| SModelId := "anthropic.claude-v2:1"; SAccept := "application/json";
     SContentType := "application/json"; SBody := list_byte_of_string "hello" |}.

(** The chunk the sample runs stamp for a content event with text [text]
    while the identifier in force is [ident]. *)
Definition frame (ident text : string) : openai.ChatCompletionsStreamResponse :=
  {| openai.Id := ident; openai.Created := 1700000000; openai.Model := "my-model";
     openai.Rest := text |}.

(** The context of the runs below, and the collaborators whose provider
    streams [script]. *)
Definition ctx : Context := context good_key "claude-2.1" None.
Definition world (script : list ResponseStream) : Collaborators := collaborators unary script.

(** One metadata event, then the channel is closed. *)
Definition script_usage : list ResponseStream :=
  [metadata Byte.x0a Byte.x05 "msg_1"].

(** One metadata event and three content events. *)
Definition script_plain : list ResponseStream :=
  [metadata Byte.x0a Byte.x05 "msg_1"; content "Hel"; content "lo"; content "!"].

(** The shape of a native message: a start event with identifier and input
    count, a content delta, a closing delta with the output count and no
    identifier, and a last content event. *)
Definition script_message : list ResponseStream :=
  [metadata Byte.x0a Byte.x01 "msg_1"; content "Hi"; metadata Byte.x00 Byte.x07 "";
   content "."].

(** A content event before any metadata event. *)
Definition script_bare : list ResponseStream := [content "Hi"].

(** A stream broken by an event with an unknown tag. *)
Definition script_broken_pre : list ResponseStream :=
  [metadata Byte.x0a Byte.x05 "msg_1"; content "Hi"].
Definition script_broken_post : list ResponseStream := [content "late"].
Definition script_broken : list ResponseStream :=
  script_broken_pre ++ UnknownUnionMember "internalServerException" :: script_broken_post.

(** A channel whose key has no newline, and a context holding it. *)
Definition bad_channel : Channel := {| Key := "AKIAsecret"; BaseURL := Some "us-east-1" |}.
Definition bad_ctx : Context := context "AKIAsecret" "claude-2.1" None.

(** The variables of the stream loop when it starts. *)
Definition start : pump := {| usage := relaymodel.Usage_zero; id := "" |}.

(** Contexts that miss something: every key, the converted request, the
    region of the channel; and one whose client leaves after two steps. *)
Definition empty_ctx : Context := {| Keys := ∅; ClientGone := None |}.
Definition no_request_ctx : Context := {|
  Keys := <[CtxKeyChannel := any_Channel {| Key := good_key; BaseURL := Some "us-east-1" |}]>
          (<[CtxKeyRequestModel := any_string "claude-2.1"]> ∅);
  ClientGone := None
|}.
Definition regionless_channel : Channel := {| Key := good_key; BaseURL := None |}.
Definition regionless_ctx : Context := {|
  Keys := <[CtxKeyChannel := any_Channel regionless_channel]>
          (<[CtxKeyRequestModel := any_string "claude-2.1"]> ∅);
  ClientGone := None
|}.
Definition leaving_ctx : Context := context good_key "claude-2.1" (Some 2%nat).

(** A metadata event, a content event that cannot be marshalled and one that
    can. *)
Definition script_unmarshalable : list ResponseStream :=
  [metadata Byte.x0a Byte.x05 "msg_1"; content "?"; content "Hi"].

(** A stream ended by a nil member of the union. *)
Definition script_nil : list ResponseStream :=
  script_broken_pre ++ OtherMember :: script_broken_post.

End Sample.

Module SampleTransport.
Import channel.

(** A client whose transport fails to connect; as net/http documents, the
    transport closes the outbound body even then. *)
Definition refusing_client (req : http_Request) (closed : gset handle)
  : (option http_Response * option error) * gset handle :=
  ((None, Some (lib_error "dial tcp: connection refused")),
   match Body req with Some body => Close closed body | None => closed end).

(** A client that answers with neither a response nor an error. *)
Definition silent_client (req : http_Request) (closed : gset handle)
  : (option http_Response * option error) * gset handle :=
  ((None, None), closed).

Definition outbound : http_Request :=
  {| Method := "POST"; URL := "https://upstream.example/v1/messages"; Header := ∅;
     Body := Some 1%nat |}.
Definition inbound : Context :=
  {| Request := {| Method := "POST"; URL := "/v1/chat/completions"; Header := ∅;
                   Body := Some 2%nat |};
     InboundBody := 2%nat |}.

(** A client that answers every request with status 200 and touches no
    body. *)
Definition answering_client (req : http_Request) (closed : gset handle)
  : (option http_Response * option error) * gset handle :=
  ((Some {| StatusCode := 200; RespHeader := ∅; RespBody := 3%nat |}, None), closed).

(** An adaptor with a fixed URL whose header set-up is the common one, and
    one that cannot tell its URL. *)
Definition plain_adaptor : Adaptor := {|
  GetRequestURL := fun _ => ("https://upstream.example/v1/messages", None);
  SetupRequestHeader := fun c req meta => (SetupCommonRequestHeader c req meta, None)
|}.
Definition lost_adaptor : Adaptor := {|
  GetRequestURL := fun _ => ("", Some (lib_error "no base url"));
  SetupRequestHeader := fun c req meta => (SetupCommonRequestHeader c req meta, None)
|}.

(** net/http accepting every method and every URL. *)
Definition any_method (method : string) : option error := None.
Definition any_url (url : string) : option error := None.

Definition streaming : RelayMeta := {| IsStream := true |}.

(** An outbound request without body. *)
Definition bodiless : http_Request :=
  {| Method := "GET"; URL := "https://upstream.example/v1/models"; Header := ∅; Body := None |}.

End SampleTransport.

(** * Properties *)

(** ** Go primitives *)

Lemma int_wrap_fits (z : Z) : int_fits z -> int_wrap z = z.
Proof.
  unfold int_fits, int_min, int_max, int_wrap. intros Hz.
  rewrite Z.mod_small; lia.
Qed.

Lemma int_wrap_range (z : Z) : int_fits (int_wrap z).
Proof.
  unfold int_fits, int_min, int_max, int_wrap.
  pose proof (Z.mod_pos_bound (z + 2 ^ 63) (2 ^ 64) ltac:(lia)). lia.
Qed.

Lemma int_wrap_add_l (a b : Z) : int_wrap (int_wrap a + b) = int_wrap (a + b).
Proof.
  unfold int_wrap.
  replace ((a + 2 ^ 63) mod 2 ^ 64 - 2 ^ 63 + b + 2 ^ 63)
    with ((a + 2 ^ 63) mod 2 ^ 64 + b) by lia.
  rewrite Zplus_mod_idemp_l. f_equal. f_equal. lia.
Qed.

Lemma int_add_exact (a b : Z) : int_fits (a + b) -> int_add a b = a + b.
Proof. apply int_wrap_fits. Qed.

Lemma strings_Split_length (s : string) (sep : ascii) :
  length (strings_Split s sep) = S (occurrences sep s).
Proof.
  induction s as [|ch rest IH]; simpl; [reflexivity|].
  destruct (Ascii.eqb ch sep); simpl.
  - now rewrite IH.
  - destruct (strings_Split rest sep) as [|piece pieces]; simpl in *; congruence.
Qed.

Lemma Header_Get_Set_eq (h : gmap string (list string)) (key value : string) :
  Header_Get (Header_Set h key value) key = value.
Proof. unfold Header_Get, Header_Set. now rewrite lookup_insert_eq. Qed.

Lemma Header_Get_Set_ne (h : gmap string (list string)) (key key' value : string) :
  key <> key' -> Header_Get (Header_Set h key value) key' = Header_Get h key'.
Proof. intros Hne. unfold Header_Get, Header_Set. now rewrite lookup_insert_ne. Qed.

(** ** Package [channel] *)

Module channel_properties.
Import channel SampleTransport.

(** C9.  After [SetupCommonRequestHeader] the native request's Content-Type
    is the inbound one; its Accept is the inbound one, except that a
    streaming request whose inbound Accept is the empty string gets
    [text/event-stream].  No other header and no other part of the request
    changes. *)
Theorem SetupCommonRequestHeader_spec (c : Context) (req : http_Request) (meta : RelayMeta) :
  Header_Get (Header (SetupCommonRequestHeader c req meta)) "Content-Type"
  = Header_Get (Header (Request c)) "Content-Type"
  /\ Header_Get (Header (SetupCommonRequestHeader c req meta)) "Accept" =
       (if IsStream meta && String.eqb (Header_Get (Header (Request c)) "Accept") ""
        then "text/event-stream" else Header_Get (Header (Request c)) "Accept")
  /\ (forall key, key <> "Content-Type" -> key <> "Accept" ->
        Header (SetupCommonRequestHeader c req meta) !! key = Header req !! key)
  /\ Method (SetupCommonRequestHeader c req meta) = Method req
  /\ URL (SetupCommonRequestHeader c req meta) = URL req
  /\ Body (SetupCommonRequestHeader c req meta) = Body req.
Proof.
  unfold SetupCommonRequestHeader. cbn [Header Method URL Body].
  destruct (IsStream meta && String.eqb (Header_Get (Header (Request c)) "Accept") "").
  - repeat split.
    + rewrite !Header_Get_Set_ne by discriminate. apply Header_Get_Set_eq.
    + apply Header_Get_Set_eq.
    + intros key H1 H2. unfold Header_Set.
      rewrite !lookup_insert_ne by congruence. reflexivity.
  - repeat split.
    + rewrite Header_Get_Set_ne by discriminate. apply Header_Get_Set_eq.
    + apply Header_Get_Set_eq.
    + intros key H1 H2. unfold Header_Set.
      rewrite !lookup_insert_ne by congruence. reflexivity.
Qed.

Section Transport.
Variable HTTPClient_Do :
  http_Request -> gset handle -> (option http_Response * option error) * gset handle.

(** On the success path [DoRequest] closes both bodies. *)
Lemma DoRequest_success_closes_both c req closed resp closed' body :
  HTTPClient_Do req closed = ((Some resp, None), closed') ->
  Body req = Some body ->
  exists closed'',
    DoRequest HTTPClient_Do c req closed = (Returned (Some resp, None), closed'')
    /\ body ∈ closed'' /\ InboundBody c ∈ closed''.
Proof.
  intros HDo Hbody. unfold DoRequest. rewrite HDo, Hbody.
  eexists; split; [reflexivity|]. unfold Close. split; set_solver.
Qed.

(** On both error paths [DoRequest] returns without closing anything: the
    store is the one the client left. *)
Lemma DoRequest_error_closes_nothing c req closed resp err closed' :
  HTTPClient_Do req closed = ((resp, err), closed') ->
  err <> None \/ resp = None ->
  exists e, DoRequest HTTPClient_Do c req closed = (Returned (None, Some e), closed').
Proof.
  intros HDo Hfail. unfold DoRequest. rewrite HDo.
  destruct err as [e|]; [eauto|].
  destruct resp as [r|]; [|eauto].
  destruct Hfail; congruence.
Qed.
End Transport.

(** C3.  On the transport-error path and on the nil-response path
    [DoRequest] returns with the inbound body still open (and, on the
    nil-response path, the outbound body as well). *)
Theorem DoRequest_error_paths_leave_bodies_open :
  (exists e closed, DoRequest refusing_client inbound outbound ∅ = (Returned (None, Some e), closed)
                    /\ (InboundBody inbound ∉ closed))
  /\ (exists closed, DoRequest silent_client inbound outbound ∅
                     = (Returned (None, Some (errors_New "resp is nil")), closed)
                     /\ (InboundBody inbound ∉ closed) /\ (1%nat ∉ closed)).
Proof.
  split.
  - eexists _, _. split; [reflexivity|]. cbn. unfold Close.
    rewrite elem_of_union, elem_of_singleton, elem_of_empty. intros [H|[]]. discriminate H.
  - eexists. split; [reflexivity|].
    split; apply not_elem_of_empty.
Qed.

End channel_properties.

(** ** Package [aws] *)

Module aws_properties.
Import aws aws_spec.

Section Handlers.
Context {D : Decls} {X : Collaborators}.

Lemma step_cases c createdTime st event :
  step_case c createdTime st event (step c createdTime st (Some event)).
Proof.
  destruct event as [bytes|tag|]; cbn [step].
  - destruct (json_Decode_StreamResponse bytes) as [err|claudeResp] eqn:Hdec.
    + apply step_abort; cbn; rewrite ?Hdec; reflexivity.
    + destruct (StreamResponseClaude2OpenAI claudeResp) as [[response|] [meta|]] eqn:Hconv.
      * apply step_metadata; cbn; rewrite Hdec, ?Hconv; reflexivity.
      * destruct (json_Marshal_Chunk _) as [err|jsonStr] eqn:Hm.
        -- apply step_skipped; cbn; rewrite Hdec, ?Hconv; reflexivity.
        -- eapply step_frame; eauto; cbn; rewrite Hdec, ?Hconv; reflexivity.
      * apply step_metadata; cbn; rewrite Hdec, ?Hconv; reflexivity.
      * apply step_empty; cbn; rewrite Hdec, ?Hconv; reflexivity.
  - apply step_abort; reflexivity.
  - apply step_abort; reflexivity.
Qed.

Lemma step_keepOpen c createdTime st event :
  snd (step c createdTime st (Some event)) = keeps_open event.
Proof.
  destruct (step_cases c createdTime st event); cbn; congruence.
Qed.

(** Once the provider stream is obtained, [StreamHandler] is the stream loop
    between the provider call and the deferred close, and it returns the
    usage the loop leaves. *)
Lemma StreamHandler_run c resp cli input script :
  obtains_stream c cli input script ->
  let pumped := c_Stream c helper_GetTimestamp (ClientGone c) script
                         {| usage := relaymodel.Usage_zero; id := "" |} in
  StreamHandler c resp =
    (Call_InvokeModelWithResponseStream cli input
       :: Writer_Header_Set "Content-Type" "text/event-stream"
       :: fst pumped ++ [Stream_Close],
     Returned None (Some (usage (snd pumped)))).
Proof.
  intros [(channel & claudeReq & awsClaudeReq & Hch & Hcli & Hid & Hreq & Hcopy & Hbody)
            (Hacc & Hct & Hcall)] pumped.
  unfold StreamHandler. rewrite Hch. cbn [assert_Channel lift_go ret bind].
  rewrite Hcli. cbn [lift_go ret bind]. rewrite Hid. cbn [ret bind].
  rewrite Hreq. cbn [assert_Request lift_go ret bind]. rewrite Hcopy. cbn [ret bind].
  rewrite Hbody. cbn [ret bind perform SModelId SAccept SContentType SBody].
  destruct input as [m a ct b]; cbn in Hacc, Hct, Hcall |- *. subst a ct.
  rewrite Hcall. cbn [ret bind perform defer run app].
  fold pumped. destruct pumped as [fx st]. cbn. rewrite app_nil_r. reflexivity.
Qed.

(** Once the native response is obtained, [Handler] renders its translation
    and returns its usage. *)
Lemma Handler_run c resp promptTokens modelName cli input claudeResponse :
  obtains_response c cli input claudeResponse ->
  let usage :=
    {| relaymodel.PromptTokens := anthropic.InputTokens (anthropic.Usage_ claudeResponse);
       relaymodel.CompletionTokens := anthropic.OutputTokens (anthropic.Usage_ claudeResponse);
       relaymodel.TotalTokens :=
         int_add (anthropic.InputTokens (anthropic.Usage_ claudeResponse))
                 (anthropic.OutputTokens (anthropic.Usage_ claudeResponse)) |} in
  Handler c resp promptTokens modelName =
    ([Call_InvokeModel cli input;
      JSON 200 {| openai.TModel := modelName; openai.TUsage := usage;
                  openai.TRest := openai.TRest (ResponseClaude2OpenAI claudeResponse) |}],
     Returned None (Some usage)).
Proof.
  intros [(channel & claudeReq & awsClaudeReq & Hch & Hcli & Hid & Hreq & Hcopy & Hbody)
            (Hacc & Hct & awsResp & Hcall & Hdec)] usage.
  unfold Handler. rewrite Hch. cbn [assert_Channel lift_go ret bind].
  rewrite Hcli. cbn [lift_go ret bind]. rewrite Hid. cbn [ret bind].
  rewrite Hreq. cbn [assert_Request lift_go ret bind]. rewrite Hcopy. cbn [ret bind].
  rewrite Hbody. cbn [ret bind perform ModelId Accept ContentType Body].
  destruct input as [m a ct b]; cbn in Hacc, Hct, Hcall |- *. subst a ct.
  rewrite Hcall. cbn [ret bind]. rewrite Hdec. reflexivity.
Qed.

(** *** The stream loop *)

Lemma c_Stream_gone c createdTime events st :
  c_Stream c createdTime (Some O) events st = ([], st).
Proof. destruct events; reflexivity. Qed.

Lemma c_Stream_closed c createdTime gone st :
  gone <> Some O -> c_Stream c createdTime gone [] st = ([RenderDone], st).
Proof. destruct gone as [[|g]|]; intros Hg; try reflexivity. congruence. Qed.

Lemma c_Stream_cons c createdTime gone event events st :
  gone <> Some O ->
  c_Stream c createdTime gone (event :: events) st =
    let '(st', fx, keepOpen) := step c createdTime st (Some event) in
    if keepOpen then
      let '(fx', st'') := c_Stream c createdTime (Nat.pred <$> gone) events st' in
      (fx ++ fx', st'')
    else (fx, st').
Proof. destruct gone as [[|g]|]; intros Hg; try reflexivity. congruence. Qed.

Lemma observed_cons gone event events :
  gone <> Some O ->
  observed gone (event :: events) =
    if keeps_open event then event :: observed (Nat.pred <$> gone) events else [event].
Proof. destruct gone as [[|g]|]; intros Hg; try reflexivity. congruence. Qed.

Lemma client_stays_S gone n :
  client_stays gone (S n) -> gone <> Some O /\ client_stays (Nat.pred <$> gone) n.
Proof.
  destruct gone as [[|g]|]; cbn; intros H; split; try congruence; try lia; exact I.
Qed.

Lemma client_stays_here gone n : client_stays gone n -> gone <> Some O.
Proof. destruct gone as [[|g]|]; cbn; intros H; try congruence; lia. Qed.

(** The counters after the loop: the deltas of the events pulled, added to
    the counters it started from; the total is left alone. *)
Lemma pump_usage c createdTime events : forall gone st,
  int_fits (relaymodel.PromptTokens (usage st)) ->
  int_fits (relaymodel.CompletionTokens (usage st)) ->
  usage (snd (c_Stream c createdTime gone events st)) =
    {| relaymodel.PromptTokens :=
         int_wrap (relaymodel.PromptTokens (usage st)
                   + sum_tokens anthropic.InputTokens (observed gone events));
       relaymodel.CompletionTokens :=
         int_wrap (relaymodel.CompletionTokens (usage st)
                   + sum_tokens anthropic.OutputTokens (observed gone events));
       relaymodel.TotalTokens := relaymodel.TotalTokens (usage st) |}.
Proof.
  assert (Hstop : forall st : pump,
    int_fits (relaymodel.PromptTokens (usage st)) ->
    int_fits (relaymodel.CompletionTokens (usage st)) ->
    usage st =
      {| relaymodel.PromptTokens := int_wrap (relaymodel.PromptTokens (usage st) + 0);
         relaymodel.CompletionTokens := int_wrap (relaymodel.CompletionTokens (usage st) + 0);
         relaymodel.TotalTokens := relaymodel.TotalTokens (usage st) |}).
  { intros [[p k t] i] Hp Hk; cbn in *.
    rewrite !Z.add_0_r, !int_wrap_fits by assumption. reflexivity. }
  induction events as [|event events IH]; intros gone st Hp Hk.
  - destruct (decide (gone = Some O)) as [->|Hg].
    + rewrite c_Stream_gone. cbn. now apply Hstop.
    + rewrite c_Stream_closed by assumption.
      replace (observed gone []) with (@nil ResponseStream) by (destruct gone as [[|g]|]; reflexivity).
      cbn. now apply Hstop.
  - destruct (decide (gone = Some O)) as [->|Hg].
    + rewrite c_Stream_gone. cbn. now apply Hstop.
    + rewrite c_Stream_cons, observed_cons by assumption.
      destruct (step_cases c createdTime st event) as [log Hk0 Hm _|meta Hk0 Hm|Hk0 Hm| |msg Hk0 Hm];
        try match goal with H : keeps_open event = true |- _ => rename H into Hk0 end;
        try match goal with H : metadata_of event = None |- _ => rename H into Hm end;
        rewrite Hk0; cbn [sum_tokens]; rewrite ?Hm.
      * cbn. now apply Hstop.
      * specialize (IH (Nat.pred <$> gone)
                       {| usage :=
                            {| relaymodel.PromptTokens :=
                                 int_add (relaymodel.PromptTokens (usage st))
                                         (anthropic.InputTokens (anthropic.Usage_ meta));
                               relaymodel.CompletionTokens :=
                                 int_add (relaymodel.CompletionTokens (usage st))
                                         (anthropic.OutputTokens (anthropic.Usage_ meta));
                               relaymodel.TotalTokens := relaymodel.TotalTokens (usage st) |};
                          id := "chatcmpl-" +:+ anthropic.Id meta |}).
        destruct (c_Stream c createdTime (Nat.pred <$> gone) events _) as [fx' st''].
        cbn in IH |- *. rewrite IH by apply int_wrap_range.
        unfold int_add. rewrite !int_wrap_add_l, !Z.add_assoc. reflexivity.
      * specialize (IH (Nat.pred <$> gone) st Hp Hk).
        destruct (c_Stream c createdTime (Nat.pred <$> gone) events st) as [fx' st''].
        exact IH.
      * specialize (IH (Nat.pred <$> gone) st Hp Hk).
        destruct (c_Stream c createdTime (Nat.pred <$> gone) events st) as [fx' st''].
        exact IH.
      * specialize (IH (Nat.pred <$> gone) st Hp Hk).
        destruct (c_Stream c createdTime (Nat.pred <$> gone) events st) as [fx' st''].
        exact IH.
Qed.

Lemma observed_all pre : forall gone,
  Forall (fun event => keeps_open event = true) pre ->
  match gone with None => True | Some g => (length pre <= g)%nat end ->
  observed gone pre = pre.
Proof.
  induction pre as [|event pre IH]; intros gone Hall Hg.
  - destruct gone as [[|g]|]; reflexivity.
  - inversion Hall as [|? ? Hk Hall']; subst.
    destruct gone as [[|g]|]; cbn in Hg |- *; try lia; rewrite Hk; f_equal; apply IH;
      cbn; try assumption; try exact I; lia.
Qed.

(** While the events keep the loop open and the client stays, the loop on
    [pre ++ rest] does on [pre] what [pump_prefix] says and goes on with
    [rest]. *)
Lemma pump_split c createdTime pre rest : forall gone st,
  Forall (fun event => keeps_open event = true) pre ->
  match gone with None => True | Some g => (length pre <= g)%nat end ->
  c_Stream c createdTime gone (pre ++ rest) st =
    (fst (pump_prefix c createdTime pre st)
       ++ fst (c_Stream c createdTime ((fun g => g - length pre)%nat <$> gone) rest
                        (snd (pump_prefix c createdTime pre st))),
     snd (c_Stream c createdTime ((fun g => g - length pre)%nat <$> gone) rest
                   (snd (pump_prefix c createdTime pre st)))).
Proof.
  unfold pump_prefix.
  induction pre as [|event pre IH]; intros gone st Hall Hg.
  - cbn [length app]. rewrite c_Stream_gone. cbn [fst snd app].
    replace ((fun g => g - 0)%nat <$> gone) with gone
      by (destruct gone; cbn; f_equal; lia).
    now destruct (c_Stream c createdTime gone rest st).
  - inversion Hall as [|? ? Hk Hall']; subst.
    assert (Hne : gone <> Some O) by (destruct gone as [[|g]|]; cbn in Hg; try congruence; lia).
    cbn [length app]. rewrite !c_Stream_cons by congruence.
    pose proof (step_keepOpen c createdTime st event) as Hko. rewrite Hk in Hko.
    destruct (step c createdTime st (Some event)) as [[st' fx] keepOpen]. cbn in Hko. subst keepOpen.
    cbn [fmap option_fmap option_map Nat.pred].
    specialize (IH (Nat.pred <$> gone) st' Hall').
    rewrite IH by (destruct gone as [[|g]|]; cbn in Hg |- *; try exact I; lia).
    replace ((fun g => g - length pre)%nat <$> (Nat.pred <$> gone))
      with ((fun g => g - S (length pre))%nat <$> gone)
      by (destruct gone as [g|]; cbn; f_equal; lia).
    destruct (c_Stream c createdTime (Some (length pre)) pre st') as [fx1 st1]. cbn [fst snd].
    destruct (c_Stream c createdTime _ rest st1) as [fx2 st2]. cbn [fst snd].
    now rewrite app_assoc.
Qed.

(** A loop cut by the client leaving never writes the terminator. *)
Lemma pump_prefix_no_done c createdTime pre : forall st,
  Forall (fun e => e <> RenderDone) (fst (pump_prefix c createdTime pre st)).
Proof.
  unfold pump_prefix.
  induction pre as [|event pre IH]; intros st.
  - rewrite c_Stream_gone. constructor.
  - cbn [length]. rewrite c_Stream_cons by congruence.
    destruct (step_cases c createdTime st event) as [log Hk0 Hm Hlog|meta Hk0 Hm|Hk0 Hm| |msg Hk0 Hm].
    + cbn. constructor; [|constructor]. intros ->. discriminate Hlog.
    + cbn [fmap option_fmap option_map Nat.pred].
      specialize (IH {| usage :=
                          {| relaymodel.PromptTokens :=
                               int_add (relaymodel.PromptTokens (usage st))
                                       (anthropic.InputTokens (anthropic.Usage_ meta));
                             relaymodel.CompletionTokens :=
                               int_add (relaymodel.CompletionTokens (usage st))
                                       (anthropic.OutputTokens (anthropic.Usage_ meta));
                             relaymodel.TotalTokens := relaymodel.TotalTokens (usage st) |};
                        id := "chatcmpl-" +:+ anthropic.Id meta |}).
      destruct (c_Stream c createdTime (Some (length pre)) pre _) as [fx' st'']. exact IH.
    + cbn [fmap option_fmap option_map Nat.pred]. specialize (IH st).
      destruct (c_Stream c createdTime (Some (length pre)) pre st) as [fx' st'']. exact IH.
    + cbn [fmap option_fmap option_map Nat.pred]. specialize (IH st).
      destruct (c_Stream c createdTime (Some (length pre)) pre st) as [fx' st''].
      cbn. constructor; [discriminate|exact IH].
    + cbn [fmap option_fmap option_map Nat.pred]. specialize (IH st).
      destruct (c_Stream c createdTime (Some (length pre)) pre st) as [fx' st''].
      cbn. constructor; [discriminate|exact IH].
Qed.

(** The counters after pulling exactly [pre], from the zero counters. *)
Lemma pump_prefix_usage c createdTime pre ident :
  Forall (fun event => keeps_open event = true) pre ->
  usage (snd (pump_prefix c createdTime pre {| usage := relaymodel.Usage_zero; id := ident |}))
  = accumulated pre.
Proof.
  intros Hall. unfold pump_prefix.
  rewrite pump_usage by (cbn; unfold int_fits, int_min, int_max; lia).
  rewrite observed_all by (cbn; auto). reflexivity.
Qed.

(** Every content frame the loop writes comes from a chunk event that decoded
    to displayable content, stamped with the identifier then in force, the
    origin model name and the creation time, and is the serialisation of that
    stamped chunk. *)
Lemma pump_frames c createdTime script : forall gone st chunk jsonStr,
  In (RenderChunk chunk jsonStr) (fst (c_Stream c createdTime gone script st)) ->
  exists pre bytes post claudeResp response,
    script = pre ++ ResponseStreamMemberChunk bytes :: post
    /\ json_Decode_StreamResponse bytes = inr claudeResp
    /\ StreamResponseClaude2OpenAI claudeResp = (Some response, None)
    /\ chunk = {| openai.Id := captured_id_from (id st) pre;
                  openai.Model := c_GetString c CtxKeyOriginModel;
                  openai.Created := createdTime;
                  openai.Rest := openai.Rest response |}
    /\ json_Marshal_Chunk chunk = inr jsonStr.
Proof.
  induction script as [|event script IH]; intros gone st chunk jsonStr Hin.
  - destruct (decide (gone = Some O)) as [->|Hg].
    + rewrite c_Stream_gone in Hin. destruct Hin.
    + rewrite c_Stream_closed in Hin by assumption. destruct Hin as [Hin|[]]. discriminate Hin.
  - destruct (decide (gone = Some O)) as [->|Hg].
    + rewrite c_Stream_gone in Hin. destruct Hin.
    + rewrite c_Stream_cons in Hin by assumption.
      assert (Hrec : forall st',
        id st' = match metadata_of event with
                 | Some meta => "chatcmpl-" +:+ anthropic.Id meta
                 | None => id st
                 end ->
        In (RenderChunk chunk jsonStr) (fst (c_Stream c createdTime (Nat.pred <$> gone) script st')) ->
        exists pre bytes post claudeResp response,
          event :: script = pre ++ ResponseStreamMemberChunk bytes :: post
          /\ json_Decode_StreamResponse bytes = inr claudeResp
          /\ StreamResponseClaude2OpenAI claudeResp = (Some response, None)
          /\ chunk = {| openai.Id := captured_id_from (id st) pre;
                        openai.Model := c_GetString c CtxKeyOriginModel;
                        openai.Created := createdTime;
                        openai.Rest := openai.Rest response |}
          /\ json_Marshal_Chunk chunk = inr jsonStr).
      { intros st' Hid Hin'.
        destruct (IH _ _ _ _ Hin') as (pre & bytes & post & cr & r & -> & Hd & Hc & Hchunk & Hm).
        exists (event :: pre), bytes, post, cr, r. repeat split; try assumption.
        cbn [captured_id_from]. rewrite <- Hid. exact Hchunk. }
      destruct (step_cases c createdTime st event)
        as [log Hk0 Hm Hlog|meta Hk0 Hm|Hk0 Hm|bytes cr r js Hk0 Hm Hev Hd Hc chunk0 Hjs|msg Hk0 Hm].
      * destruct Hin as [Hin|[]]. subst log. discriminate Hlog.
      * match type of Hin with
        | context [c_Stream c createdTime ?g script ?s0] =>
            apply (Hrec s0);
              [cbn; now rewrite Hm
              |destruct (c_Stream c createdTime g script s0) as [fx' st'']; exact Hin]
        end.
      * apply Hrec with (st' := st); [now rewrite Hm|].
        destruct (c_Stream c createdTime (Nat.pred <$> gone) script st) as [fx' st'']. exact Hin.
      * destruct (c_Stream c createdTime (Nat.pred <$> gone) script st) as [fx' st''] eqn:Hrun.
        destruct Hin as [Hin|Hin].
        -- inversion Hin; subst chunk jsonStr.
           exists [], bytes, script, cr, r. subst event. repeat split; assumption.
        -- apply Hrec with (st' := st); [now rewrite Hm|]. now rewrite Hrun.
      * destruct (c_Stream c createdTime (Nat.pred <$> gone) script st) as [fx' st''] eqn:Hrun.
        destruct Hin as [Hin|Hin]; [discriminate Hin|].
        apply Hrec with (st' := st); [now rewrite Hm|]. now rewrite Hrun.
Qed.

Lemma wire_app (fx fx' : list effect) : wire (fx ++ fx') = wire fx ++ wire fx'.
Proof.
  induction fx as [|e fx IH]; cbn; [reflexivity|].
  destruct (Data e); cbn; now rewrite IH.
Qed.

Lemma wire_In (fx : list effect) (data : string) :
  In data (wire fx) -> exists e, In e fx /\ Data e = Some data.
Proof.
  induction fx as [|e fx IH]; cbn; [tauto|].
  destruct (Data e) as [d|] eqn:Hd.
  - intros [<-|Hin]; [eauto|]. destruct (IH Hin) as (e' & ? & ?); eauto.
  - intros Hin. destruct (IH Hin) as (e' & ? & ?); eauto.
Qed.

(** *** The claims on the streaming handler *)

(** The usage [StreamHandler] returns: the two sums over the events pulled,
    and a total that is still zero. *)
Lemma StreamHandler_usage c resp cli input script :
  obtains_stream c cli input script ->
  snd (StreamHandler c resp) =
    Returned None (Some (accumulated (observed (ClientGone c) script))).
Proof.
  intros Hs. rewrite (StreamHandler_run c resp cli input script Hs). cbn [snd].
  rewrite pump_usage by (cbn; unfold int_fits, int_min, int_max; lia). reflexivity.
Qed.

(** The frames in the trace of [StreamHandler] are those of its loop. *)
Lemma StreamHandler_frames c resp cli input script chunk jsonStr :
  obtains_stream c cli input script ->
  In (RenderChunk chunk jsonStr) (fst (StreamHandler c resp)) ->
  In (RenderChunk chunk jsonStr)
     (fst (c_Stream c helper_GetTimestamp (ClientGone c) script
                    {| usage := relaymodel.Usage_zero; id := "" |})).
Proof.
  intros Hs Hin. rewrite (StreamHandler_run c resp cli input script Hs) in Hin.
  cbn [fst] in Hin. destruct Hin as [Hin|[Hin|Hin]]; try discriminate Hin.
  apply in_app_or in Hin. destruct Hin as [Hin|[Hin|[]]]; [exact Hin|discriminate Hin].
Qed.

Lemma captured_id_from_no_metadata pre : forall ident,
  Forall (fun event => metadata_of event = None) pre ->
  captured_id_from ident pre = ident.
Proof.
  induction pre as [|e pre IH]; intros ident Hpre; cbn [captured_id_from]; [reflexivity|].
  inversion Hpre as [|? ? He Hpre']; subst. rewrite He. now apply IH.
Qed.

(** C2 (amended).  Every content frame is the serialisation of a chunk
    stamped with the identifier of the latest metadata event received before
    it (the empty string when there was none), with the origin model name of
    the request and with the creation time read once at the start. *)
Theorem StreamHandler_frame_stamp c resp cli input script chunk jsonStr :
  obtains_stream c cli input script ->
  In (RenderChunk chunk jsonStr) (fst (StreamHandler c resp)) ->
  exists pre bytes post claudeResp response,
    script = pre ++ ResponseStreamMemberChunk bytes :: post
    /\ json_Decode_StreamResponse bytes = inr claudeResp
    /\ StreamResponseClaude2OpenAI claudeResp = (Some response, None)
    /\ chunk = {| openai.Id := captured_id pre;
                  openai.Model := c_GetString c CtxKeyOriginModel;
                  openai.Created := helper_GetTimestamp;
                  openai.Rest := openai.Rest response |}
    /\ json_Marshal_Chunk chunk = inr jsonStr.
Proof.
  intros Hs Hin.
  apply (StreamHandler_frames c resp cli input script) in Hin; [|exact Hs].
  destruct (pump_frames _ _ _ _ _ _ _ Hin)
    as (pre & bytes & post & claudeResp & response & Hscript & Hdec & Hconv & Hchunk & Hjson).
  exists pre, bytes, post, claudeResp, response.
  unfold captured_id. cbn [id] in Hchunk. auto.
Qed.

(** In a stream made of one metadata event followed by events without
    metadata, every frame carries the identifier of that metadata event. *)
Lemma StreamHandler_single_metadata_id c resp cli input first meta others chunk jsonStr :
  obtains_stream c cli input (first :: others) ->
  metadata_of first = Some meta ->
  Forall (fun event => metadata_of event = None) others ->
  In (RenderChunk chunk jsonStr) (fst (StreamHandler c resp)) ->
  openai.Id chunk = "chatcmpl-" +:+ anthropic.Id meta.
Proof.
  intros Hs Hfirst Hothers Hin.
  apply (StreamHandler_frames c resp cli input (first :: others)) in Hin; [|exact Hs].
  destruct (pump_frames _ _ _ _ _ _ _ Hin)
    as (pre & bytes & post & cr & r & Hscript & Hd & Hc & -> & _).
  cbn [openai.Id id]. destruct pre as [|e pre]; cbn in Hscript.
  - injection Hscript as Hf _. subst first. cbn in Hfirst. rewrite Hd, Hc in Hfirst. discriminate.
  - injection Hscript as He Ho. subst e others. unfold captured_id. cbn [captured_id_from]. rewrite Hfirst.
    apply Forall_app in Hothers. destruct Hothers as [Hpre _].
    now apply captured_id_from_no_metadata.
Qed.

(** C7.  When the loop observes the closure of the channel, the trace of the
    handler ends with the terminator followed by the deferred close, and the
    terminator occurs nowhere before: it is written once, after every
    content frame.  On the wire, provided no chunk serialises to the text
    of the sentinel, the client reads the content frames and then the single
    line [data: [DONE]]. *)
Theorem StreamHandler_terminator c resp cli input script :
  obtains_stream c cli input script ->
  closes_normally (ClientGone c) script ->
  exists fx,
    fst (StreamHandler c resp) =
      Call_InvokeModelWithResponseStream cli input
        :: Writer_Header_Set "Content-Type" "text/event-stream"
        :: fx ++ [RenderDone; Stream_Close]
    /\ Forall (fun e => e <> RenderDone) fx
    /\ ((forall chunk jsonStr, json_Marshal_Chunk chunk = inr jsonStr -> jsonStr <> "[DONE]") ->
        wire (fst (StreamHandler c resp)) = wire fx ++ ["data: [DONE]"]
        /\ ~ In "data: [DONE]" (wire fx)).
Proof.
  intros Hs [Hall Hstay].
  rewrite (StreamHandler_run c resp cli input script Hs). cbn [fst].
  set (st0 := {| usage := relaymodel.Usage_zero; id := "" |}).
  pose proof (pump_split c helper_GetTimestamp script [] (ClientGone c) st0 Hall) as Hsplit.
  rewrite app_nil_r in Hsplit.
  rewrite Hsplit by (destruct (ClientGone c); cbn in Hstay |- *; [lia|exact I]).
  rewrite c_Stream_closed
    by (destruct (ClientGone c) as [g|]; cbn in Hstay |- *; [intros [=]; lia|discriminate]).
  cbn [fst snd].
  exists (fst (pump_prefix c helper_GetTimestamp script st0)).
  split; [now rewrite <- app_assoc|].
  split; [apply pump_prefix_no_done|].
  intros Hjson. split.
  - rewrite <- app_assoc. cbn [wire Data]. rewrite wire_app. reflexivity.
  - intros Hin. apply wire_In in Hin. destruct Hin as (e & Hin & Hdata).
    destruct e; try discriminate Hdata.
    + cbn in Hdata. injection Hdata as Hdata.
      destruct (pump_frames _ _ _ _ _ _ _ Hin) as (? & ? & ? & ? & ? & _ & _ & _ & _ & Hm).
      exact (Hjson _ _ Hm Hdata).
    + pose proof (pump_prefix_no_done c helper_GetTimestamp script st0) as Hno.
      rewrite List.Forall_forall in Hno. exact (Hno _ Hin eq_refl).
Qed.

(** C8.  When the loop meets an event with an unknown tag, or a chunk that
    fails to decode, it writes one log line and stops: no terminator is in
    the trace, nothing after the log line but the deferred close, and the
    handler returns the usage accumulated over the events before. *)
Theorem StreamHandler_abort c resp cli input pre event post :
  obtains_stream c cli input (pre ++ event :: post) ->
  Forall (fun e => keeps_open e = true) pre ->
  client_stays (ClientGone c) (length pre) ->
  (exists tag, event = UnknownUnionMember tag)
  \/ (exists bytes err, event = ResponseStreamMemberChunk bytes
                        /\ json_Decode_StreamResponse bytes = inl err) ->
  exists log,
    StreamHandler c resp =
      (Call_InvokeModelWithResponseStream cli input
         :: Writer_Header_Set "Content-Type" "text/event-stream"
         :: fst (pump_prefix c helper_GetTimestamp pre
                             {| usage := relaymodel.Usage_zero; id := "" |})
         ++ [log; Stream_Close],
       Returned None (Some (accumulated pre)))
    /\ Data log = None
    /\ ~ In RenderDone (fst (StreamHandler c resp)).
Proof.
  intros Hs Hall Hstay Hbad.
  assert (Hk : keeps_open event = false).
  { destruct Hbad as [[tag ->]|(bytes & err & -> & Hd)]; cbn; [reflexivity|now rewrite Hd]. }
  rewrite (StreamHandler_run c resp cli input _ Hs). cbn [fst snd].
  set (st0 := {| usage := relaymodel.Usage_zero; id := "" |}).
  rewrite (pump_split c helper_GetTimestamp pre (event :: post) (ClientGone c) st0 Hall)
    by (destruct (ClientGone c); cbn in Hstay |- *; [lia|exact I]).
  rewrite c_Stream_cons
    by (destruct (ClientGone c) as [g|]; cbn in Hstay |- *; [intros [=]; lia|discriminate]).
  destruct (step_cases c helper_GetTimestamp (snd (pump_prefix c helper_GetTimestamp pre st0)) event)
    as [log Hk0 Hm Hlog| | | |]; try congruence.
  cbn [fst snd]. exists log.
  rewrite (pump_prefix_usage c helper_GetTimestamp pre "" Hall).
  split; [now rewrite <- app_assoc|]. split; [assumption|].
  intros [Hin|[Hin|Hin]]; try discriminate Hin.
  rewrite <- app_assoc in Hin. apply in_app_or in Hin. destruct Hin as [Hin|Hin].
  - pose proof (pump_prefix_no_done c helper_GetTimestamp pre st0) as Hno.
    rewrite List.Forall_forall in Hno. exact (Hno _ Hin eq_refl).
  - destruct Hin as [Hin|[Hin|[]]]; [|discriminate Hin]. subst log. discriminate Hlog.
Qed.

(** The identifier the loop holds after pulling exactly [pre]. *)
Lemma pump_prefix_id c createdTime pre : forall st,
  Forall (fun event => keeps_open event = true) pre ->
  id (snd (pump_prefix c createdTime pre st)) = captured_id_from (id st) pre.
Proof.
  unfold pump_prefix.
  induction pre as [|event pre IH]; intros st Hall.
  - rewrite c_Stream_gone. reflexivity.
  - inversion Hall as [|? ? Hk Hall']; subst.
    cbn [length captured_id_from]. rewrite c_Stream_cons by congruence.
    cbn [fmap option_fmap option_map Nat.pred].
    destruct (step_cases c createdTime st event) as [log Hk0 Hm _|meta Hk0 Hm|Hk0 Hm| |msg Hk0 Hm];
      try congruence;
      try match goal with H : metadata_of event = _ |- _ => rewrite H end;
      match goal with
      | |- context [c_Stream c createdTime ?g pre ?s0] =>
          specialize (IH s0 Hall'); destruct (c_Stream c createdTime g pre s0)
      end; exact IH.
Qed.

(** On a chunk that fails to marshal the step logs the error, writes no
    frame, leaves the variables alone and answers true; the loop then goes
    on with the next events. *)
Lemma loop_marshal_failure c createdTime gone st bytes claudeResp response err rest :
  json_Decode_StreamResponse bytes = inr claudeResp ->
  StreamResponseClaude2OpenAI claudeResp = (Some response, None) ->
  json_Marshal_Chunk {| openai.Id := id st;
                        openai.Model := c_GetString c CtxKeyOriginModel;
                        openai.Created := createdTime;
                        openai.Rest := openai.Rest response |} = inl err ->
  gone <> Some O ->
  step c createdTime st (Some (ResponseStreamMemberChunk bytes))
  = (st, [SysError ("error marshalling stream response: " +:+ Error err)], true)
  /\ c_Stream c createdTime gone (ResponseStreamMemberChunk bytes :: rest) st =
       (SysError ("error marshalling stream response: " +:+ Error err)
          :: fst (c_Stream c createdTime (Nat.pred <$> gone) rest st),
        snd (c_Stream c createdTime (Nat.pred <$> gone) rest st)).
Proof.
  intros Hd Hc Hm Hg.
  assert (Hstep : step c createdTime st (Some (ResponseStreamMemberChunk bytes))
                  = (st, [SysError ("error marshalling stream response: " +:+ Error err)], true)).
  { cbn [step]. rewrite Hd, Hc, Hm. reflexivity. }
  split; [exact Hstep|].
  rewrite c_Stream_cons by assumption. rewrite Hstep.
  now destruct (c_Stream c createdTime (Nat.pred <$> gone) rest st).
Qed.

(** C10.  When [StreamHandler] pulls a content event whose stamped chunk
    fails to marshal, it logs the error with [SysError], writes no frame for
    that event and goes on: its trace is the effects of the events before,
    the log line, the effects of the loop on the events after (run from the
    same variables, the client budget one step shorter) and the close of the
    stream, and it returns the usage that continued loop leaves.  The stream
    is not ended by the failure: when the channel then closes normally the
    terminator is still written. *)
Theorem marshal_failure_skips_frame c resp cli input pre bytes post claudeResp response err :
  obtains_stream c cli input (pre ++ ResponseStreamMemberChunk bytes :: post) ->
  Forall (fun e => keeps_open e = true) pre ->
  client_stays (ClientGone c) (length pre) ->
  json_Decode_StreamResponse bytes = inr claudeResp ->
  StreamResponseClaude2OpenAI claudeResp = (Some response, None) ->
  json_Marshal_Chunk {| openai.Id := captured_id pre;
                        openai.Model := c_GetString c CtxKeyOriginModel;
                        openai.Created := helper_GetTimestamp;
                        openai.Rest := openai.Rest response |} = inl err ->
  StreamHandler c resp =
    (Call_InvokeModelWithResponseStream cli input
       :: Writer_Header_Set "Content-Type" "text/event-stream"
       :: fst (pump_prefix c helper_GetTimestamp pre
                           {| usage := relaymodel.Usage_zero; id := "" |})
       ++ SysError ("error marshalling stream response: " +:+ Error err)
       :: fst (c_Stream c helper_GetTimestamp
                        ((fun g => (g - S (length pre))%nat) <$> ClientGone c) post
                        (snd (pump_prefix c helper_GetTimestamp pre
                                          {| usage := relaymodel.Usage_zero; id := "" |})))
       ++ [Stream_Close],
     Returned None
       (Some (usage (snd (c_Stream c helper_GetTimestamp
                                   ((fun g => (g - S (length pre))%nat) <$> ClientGone c) post
                                   (snd (pump_prefix c helper_GetTimestamp pre
                                           {| usage := relaymodel.Usage_zero; id := "" |})))))))
  /\ (closes_normally (ClientGone c) (pre ++ ResponseStreamMemberChunk bytes :: post) ->
      In RenderDone (fst (StreamHandler c resp))).
Proof.
  intros Hs Hall Hstay Hd Hc Hm.
  rewrite (StreamHandler_run c resp cli input _ Hs). cbn [fst snd].
  set (st0 := {| usage := relaymodel.Usage_zero; id := "" |}).
  split.
  - rewrite (pump_split c helper_GetTimestamp pre _ (ClientGone c) st0 Hall)
      by (destruct (ClientGone c); cbn in Hstay |- *; [lia|exact I]).
    pose proof (pump_prefix_id c helper_GetTimestamp pre st0 Hall) as Hid.
    cbn [id st0] in Hid. fold (captured_id pre) in Hid. rewrite <- Hid in Hm.
    assert (Hg : (fun g => (g - length pre)%nat) <$> ClientGone c <> Some O)
      by (destruct (ClientGone c) as [g|]; cbn in Hstay |- *; [intros [=]; lia|discriminate]).
    destruct (loop_marshal_failure c helper_GetTimestamp _ _ bytes claudeResp response err post
                Hd Hc Hm Hg) as [_ Hloop].
    rewrite Hloop. cbn [fst snd].
    replace (Nat.pred <$> ((fun g => (g - length pre)%nat) <$> ClientGone c))
      with ((fun g => (g - S (length pre))%nat) <$> ClientGone c)
      by (destruct (ClientGone c) as [g|]; cbn; f_equal; lia).
    now rewrite <- app_assoc.
  - intros [Hopen Hclient].
    pose proof (pump_split c helper_GetTimestamp _ [] (ClientGone c) st0 Hopen) as Hsplit.
    rewrite app_nil_r in Hsplit.
    rewrite Hsplit by (destruct (ClientGone c); cbn in Hclient |- *; [lia|exact I]).
    rewrite c_Stream_closed
      by (destruct (ClientGone c) as [g|]; cbn in Hclient |- *; [intros [=]; lia|discriminate]).
    cbn [fst]. right; right. apply in_or_app. left. apply in_or_app. right. left. reflexivity.
Qed.

(** *** The claims on request building and on the unary handler *)

Lemma awsModelID_lookup requestModel :
  awsModelID requestModel =
    match table_lookup requestModel awsModelTable with
    | Some native => (native, None)
    | None => ("", Some (errors_Errorf "unknown model: " requestModel))
    end.
Proof.
  unfold awsModelID, awsModelTable. cbn [table_lookup].
  repeat match goal with
         | |- context [String.eqb requestModel ?name] => destruct (String.eqb requestModel name)
         end; reflexivity.
Qed.

(** A handler that gets an error from [awsModelID] performs no effect and
    does not succeed. *)
Lemma Handler_unknown_model c resp promptTokens modelName native err :
  awsModelID (c_GetString c CtxKeyRequestModel) = (native, Some err) ->
  fst (Handler c resp promptTokens modelName) = []
  /\ failed (snd (Handler c resp promptTokens modelName)).
Proof.
  intros Hid. unfold Handler.
  destruct (c_Get c CtxKeyChannel) as [[channel| | |]|]; cbn; auto.
  destruct (newAwsClient channel) as [[[cli|] [e|]]|]; cbn; auto.
  rewrite Hid. cbn. auto.
Qed.

Lemma StreamHandler_unknown_model c resp native err :
  awsModelID (c_GetString c CtxKeyRequestModel) = (native, Some err) ->
  fst (StreamHandler c resp) = [] /\ failed (snd (StreamHandler c resp)).
Proof.
  intros Hid. unfold StreamHandler.
  destruct (c_Get c CtxKeyChannel) as [[channel| | |]|]; cbn; auto.
  destruct (newAwsClient channel) as [[[cli|] [e|]]|]; cbn; auto.
  rewrite Hid. cbn. auto.
Qed.

(** C4.  [awsModelID] answers with the native identifier of the table for a
    name of the table, and with an error and no identifier for any other
    name; a handler whose request names a model outside the table then
    performs no effect at all (so no provider call) and does not succeed:
    with a channel and a client in place it returns the wrapped error. *)
Theorem awsModelID_table (requestModel : string) c resp promptTokens modelName :
  (forall native, table_lookup requestModel awsModelTable = Some native ->
                  awsModelID requestModel = (native, None))
  /\ (table_lookup requestModel awsModelTable = None ->
      awsModelID requestModel = ("", Some (errors_Errorf "unknown model: " requestModel))
      /\ (c_GetString c CtxKeyRequestModel = requestModel ->
          fst (Handler c resp promptTokens modelName) = []
          /\ failed (snd (Handler c resp promptTokens modelName))
          /\ fst (StreamHandler c resp) = []
          /\ failed (snd (StreamHandler c resp))
          /\ forall channel cli,
               c_Get c CtxKeyChannel = Some (any_Channel channel) ->
               newAwsClient channel = Val (Some cli, None) ->
               snd (Handler c resp promptTokens modelName)
               = Returned (Some (wrapErr (errors_Wrap (errors_Errorf "unknown model: " requestModel)
                                                      "awsModelID"))) None
               /\ snd (StreamHandler c resp)
                  = Returned (Some (wrapErr (errors_Wrap (errors_Errorf "unknown model: " requestModel)
                                                         "awsModelID"))) None)).
Proof.
  split.
  - intros native Hl. now rewrite awsModelID_lookup, Hl.
  - intros Hl.
    assert (Hid : awsModelID requestModel
                  = ("", Some (errors_Errorf "unknown model: " requestModel)))
      by now rewrite awsModelID_lookup, Hl.
    split; [exact Hid|]. intros Hc. rewrite <- Hc in Hid.
    destruct (Handler_unknown_model c resp promptTokens modelName _ _ Hid) as [H1 H2].
    destruct (StreamHandler_unknown_model c resp _ _ Hid) as [H3 H4].
    repeat (split; [assumption|]).
    intros channel cli Hch Hcli. rewrite <- Hc.
    unfold Handler, StreamHandler. rewrite Hch. cbn [assert_Channel lift_go ret bind].
    rewrite Hcli. cbn [lift_go ret bind]. rewrite Hid. cbn. split; reflexivity.
Qed.

(** C5.  Once the native response is obtained, the response [Handler]
    renders carries the requested model name, whatever model the native
    response names, and the usage it renders and returns has the native
    input and output token counts and their sum as total, whatever usage the
    conversion had put there. *)
Theorem Handler_translation c resp promptTokens modelName cli input claudeResponse :
  obtains_response c cli input claudeResponse ->
  exists openaiResp usage,
    Handler c resp promptTokens modelName =
      ([Call_InvokeModel cli input; JSON 200 openaiResp], Returned None (Some usage))
    /\ openai.TModel openaiResp = modelName
    /\ openai.TUsage openaiResp = usage
    /\ relaymodel.PromptTokens usage = anthropic.InputTokens (anthropic.Usage_ claudeResponse)
    /\ relaymodel.CompletionTokens usage = anthropic.OutputTokens (anthropic.Usage_ claudeResponse)
    /\ relaymodel.TotalTokens usage
       = int_add (relaymodel.PromptTokens usage) (relaymodel.CompletionTokens usage)
    /\ (int_fits (relaymodel.PromptTokens usage + relaymodel.CompletionTokens usage) ->
        relaymodel.TotalTokens usage
        = relaymodel.PromptTokens usage + relaymodel.CompletionTokens usage).
Proof.
  intros Hr. eexists _, _. split; [exact (Handler_run _ _ _ _ _ _ _ Hr)|].
  cbn. repeat split. apply int_add_exact.
Qed.

(** C6.  A channel key that does not split at newlines into exactly two
    pieces makes [newAwsClient] fail with the invalid-key error, and both
    handlers return that error, wrapped, without having performed any
    effect (so without any provider call). *)
Theorem malformed_key_rejected c resp promptTokens modelName channel :
  c_Get c CtxKeyChannel = Some (any_Channel channel) ->
  length (strings_Split (Key channel) newline) <> 2%nat ->
  newAwsClient channel = Val (None, Some (errors_New "invalid key"))
  /\ Handler c resp promptTokens modelName
     = ([], Returned (Some (wrapErr (errors_Wrap (errors_New "invalid key") "newAwsClient"))) None)
  /\ StreamHandler c resp
     = ([], Returned (Some (wrapErr (errors_Wrap (errors_New "invalid key") "newAwsClient"))) None).
Proof.
  intros Hch Hlen.
  assert (Hcli : newAwsClient channel = Val (None, Some (errors_New "invalid key"))).
  { unfold newAwsClient.
    destruct (Nat.eqb (length (strings_Split (Key channel) newline)) 2) eqn:Heq; [|reflexivity].
    apply Nat.eqb_eq in Heq. contradiction. }
  split; [exact Hcli|].
  unfold Handler, StreamHandler. rewrite Hch. cbn [assert_Channel lift_go ret bind].
  rewrite Hcli. split; reflexivity.
Qed.

(** The pieces of a key are two exactly when it holds one newline. *)
Lemma key_pieces (key : string) :
  length (strings_Split key newline) = 2%nat <-> occurrences newline key = 1%nat.
Proof. rewrite strings_Split_length. lia. Qed.

End Handlers.

End aws_properties.

(** ** Runs on the sample instantiation *)

Module aws_runs.
Import aws aws_spec aws_properties Sample.

#[local] Existing Instance decls.

Lemma sample_builds_request unary script :
  builds_request (X := collaborators unary script) (context good_key "claude-2.1" None)
                 client "anthropic.claude-v2:1" (list_byte_of_string "hello").
Proof.
  exists {| Key := good_key; BaseURL := Some "us-east-1" |}, "hello",
         (@Build_Request decls "bedrock-2023-05-31" "hello").
  repeat split; reflexivity.
Defined.

Lemma sample_obtains_stream unary script :
  obtains_stream (X := collaborators unary script) (context good_key "claude-2.1" None)
                 client stream_input script.
Proof.
  split; [apply sample_builds_request|]. repeat split; reflexivity.
Defined.

Lemma sample_obtains_response script :
  obtains_response (X := collaborators unary script) (context good_key "claude-2.1" None)
                   client unary_input unary.
Proof.
  split; [apply sample_builds_request|]. repeat split; try reflexivity.
  exists []. split; reflexivity.
Defined.

(** C1.  On a stream of one metadata event with 10 input and 5 output
    tokens, closed right after, [StreamHandler] returns the usage
    (10, 5, 0): the two counters are the sums of the deltas, the total is
    not recomputed from them. *)
Theorem StreamHandler_total_left_zero :
  exists usage,
    snd (StreamHandler (X := world script_usage) ctx response) = Returned None (Some usage)
    /\ relaymodel.PromptTokens usage = 10
    /\ relaymodel.CompletionTokens usage = 5
    /\ relaymodel.TotalTokens usage = 0
    /\ relaymodel.TotalTokens usage
       <> int_add (relaymodel.PromptTokens usage) (relaymodel.CompletionTokens usage).
Proof.
  exists (accumulated (X := world script_usage) (observed (X := world script_usage)
                                                          (ClientGone ctx) script_usage)).
  split.
  - exact (StreamHandler_usage (X := world script_usage) ctx response client stream_input
             script_usage (sample_obtains_stream unary script_usage)).
  - vm_compute. repeat split. discriminate.
Qed.

(** C2, counterexample.  In the stream [script_message] the two frames
    carry different identifiers, the second one the bare prefix; in the
    stream [script_bare], which has no metadata event, the frame carries the
    empty string and no generated identifier. *)
Lemma StreamHandler_frames_differ_in_id :
  (exists chunk1 json1 chunk2 json2,
     In (RenderChunk chunk1 json1)
        (fst (StreamHandler (X := collaborators unary script_message)
                            (context good_key "claude-2.1" None) response))
     /\ In (RenderChunk chunk2 json2)
           (fst (StreamHandler (X := collaborators unary script_message)
                               (context good_key "claude-2.1" None) response))
     /\ openai.Id chunk1 = "chatcmpl-msg_1" /\ openai.Id chunk2 = "chatcmpl-"
     /\ openai.Id chunk1 <> openai.Id chunk2)
  /\ (exists chunk json,
        In (RenderChunk chunk json)
           (fst (StreamHandler (X := collaborators unary script_bare)
                               (context good_key "claude-2.1" None) response))
        /\ openai.Id chunk = "").
Proof.
  split.
  - exists (frame "chatcmpl-msg_1" "Hi"), "{chatcmpl-msg_1,my-model,Hi}",
           (frame "chatcmpl-" "."), "{chatcmpl-,my-model,.}".
    repeat split; try discriminate.
    + vm_compute. right; right; left. reflexivity.
    + vm_compute. right; right; right; left. reflexivity.
  - exists (frame "" "Hi"), "{,my-model,Hi}".
    split; [|reflexivity]. vm_compute. right; right; left. reflexivity.
Qed.

(** [StreamHandler_frame_stamp] on the last frame of [script_message]. *)
Lemma StreamHandler_frame_stamp_witness :
  obtains_stream (X := world script_message) ctx client stream_input script_message
  /\ In (RenderChunk (frame "chatcmpl-" ".") "{chatcmpl-,my-model,.}")
        (fst (StreamHandler (X := world script_message) ctx response))
  /\ exists pre bytes post claudeResp response0,
       script_message = pre ++ ResponseStreamMemberChunk bytes :: post
       /\ json_Decode_StreamResponse (Collaborators := world script_message) bytes = inr claudeResp
       /\ StreamResponseClaude2OpenAI (Collaborators := world script_message) claudeResp
          = (Some response0, None)
       /\ frame "chatcmpl-" "." =
            {| openai.Id := captured_id (X := world script_message) pre;
               openai.Model := c_GetString ctx CtxKeyOriginModel;
               openai.Created := helper_GetTimestamp (Collaborators := world script_message);
               openai.Rest := openai.Rest response0 |}
       /\ json_Marshal_Chunk (Collaborators := world script_message) (frame "chatcmpl-" ".")
          = inr "{chatcmpl-,my-model,.}".
Proof.
  assert (Hin : In (RenderChunk (frame "chatcmpl-" ".") "{chatcmpl-,my-model,.}")
                   (fst (StreamHandler (X := world script_message) ctx response))).
  { vm_compute. right; right; right; left. reflexivity. }
  split; [apply sample_obtains_stream|]. split; [exact Hin|].
  exact (StreamHandler_frame_stamp (X := world script_message) ctx response client stream_input
           script_message _ _ (sample_obtains_stream unary script_message) Hin).
Defined.

(** [StreamHandler_terminator] on the stream [script_plain]. *)
Lemma StreamHandler_terminator_witness :
  obtains_stream (X := world script_plain) ctx client stream_input script_plain
  /\ closes_normally (X := world script_plain) (ClientGone ctx) script_plain
  /\ (forall chunk jsonStr,
        json_Marshal_Chunk (Collaborators := world script_plain) chunk = inr jsonStr ->
        jsonStr <> "[DONE]")
  /\ exists fx,
       fst (StreamHandler (X := world script_plain) ctx response) =
         Call_InvokeModelWithResponseStream client stream_input
           :: Writer_Header_Set "Content-Type" "text/event-stream"
           :: fx ++ [RenderDone; Stream_Close]
       /\ Forall (fun e => e <> RenderDone) fx
       /\ wire (fst (StreamHandler (X := world script_plain) ctx response))
          = wire fx ++ ["data: [DONE]"]
       /\ ~ In "data: [DONE]" (wire fx).
Proof.
  assert (Hclose : closes_normally (X := world script_plain) (ClientGone ctx) script_plain).
  { split; [|exact I]. repeat constructor. }
  assert (Hjson : forall chunk jsonStr,
             json_Marshal_Chunk (Collaborators := world script_plain) chunk = inr jsonStr ->
             jsonStr <> "[DONE]").
  { intros chunk jsonStr. cbn. unfold marshal.
    destruct (String.eqb (openai.Rest chunk) "?"); [discriminate|].
    intros H. injection H as <-. cbn. discriminate. }
  split; [apply sample_obtains_stream|]. split; [exact Hclose|]. split; [exact Hjson|].
  destruct (StreamHandler_terminator (X := world script_plain) ctx response client stream_input
              script_plain (sample_obtains_stream unary script_plain) Hclose)
    as (fx & Htrace & Hno & Hwire).
  exists fx. destruct (Hwire Hjson) as [Hw1 Hw2]. repeat split; assumption.
Defined.

(** [StreamHandler_abort] on a stream broken by an unknown tag after one
    metadata event and one content event. *)
Lemma StreamHandler_abort_witness :
  obtains_stream (X := world script_broken) ctx client stream_input script_broken
  /\ Forall (fun e => keeps_open (X := world script_broken) e = true) script_broken_pre
  /\ client_stays (ClientGone ctx) (length script_broken_pre)
  /\ exists log,
       StreamHandler (X := world script_broken) ctx response =
         (Call_InvokeModelWithResponseStream client stream_input
            :: Writer_Header_Set "Content-Type" "text/event-stream"
            :: fst (pump_prefix (X := world script_broken) ctx
                      (helper_GetTimestamp (Collaborators := world script_broken)) script_broken_pre
                      {| usage := relaymodel.Usage_zero; id := "" |})
            ++ [log; Stream_Close],
          Returned None (Some (accumulated (X := world script_broken) script_broken_pre)))
       /\ Data log = None
       /\ ~ In RenderDone (fst (StreamHandler (X := world script_broken) ctx response)).
Proof.
  assert (Hpre : Forall (fun e => keeps_open (X := world script_broken) e = true) script_broken_pre)
    by repeat constructor.
  split; [apply sample_obtains_stream|]. split; [exact Hpre|]. split; [exact I|].
  exact (StreamHandler_abort (X := world script_broken) ctx response client stream_input
           script_broken_pre (UnknownUnionMember "internalServerException") script_broken_post
           (sample_obtains_stream unary script_broken) Hpre I
           (or_introl (ex_intro _ "internalServerException" eq_refl))).
Defined.

(** [marshal_failure_skips_frame] on [script_unmarshalable]: the second
    event is skipped with a log line, the third is rendered and the
    terminator follows. *)
Lemma marshal_failure_skips_frame_witness :
  obtains_stream (X := world script_unmarshalable) ctx client stream_input script_unmarshalable
  /\ json_Marshal_Chunk (Collaborators := world script_unmarshalable)
       (frame "chatcmpl-msg_1" "?") = inl (lib_error "json: unsupported value")
  /\ closes_normally (X := world script_unmarshalable) (ClientGone ctx) script_unmarshalable
  /\ StreamHandler (X := world script_unmarshalable) ctx response =
       ([Call_InvokeModelWithResponseStream client stream_input;
         Writer_Header_Set "Content-Type" "text/event-stream";
         SysError "error marshalling stream response: json: unsupported value";
         RenderChunk (frame "chatcmpl-msg_1" "Hi") "{chatcmpl-msg_1,my-model,Hi}";
         RenderDone; Stream_Close],
        Returned None (Some {| relaymodel.PromptTokens := 10;
                               relaymodel.CompletionTokens := 5;
                               relaymodel.TotalTokens := 0 |}))
  /\ In RenderDone (fst (StreamHandler (X := world script_unmarshalable) ctx response)).
Proof.
  assert (Hclose : closes_normally (X := world script_unmarshalable) (ClientGone ctx)
                                   script_unmarshalable)
    by (split; [repeat constructor|exact I]).
  destruct (marshal_failure_skips_frame (X := world script_unmarshalable) ctx response client
              stream_input [metadata Byte.x0a Byte.x05 "msg_1"] (list_byte_of_string "?")
              [content "Hi"] (list_byte_of_string "?")
              (@openai.Build_ChatCompletionsStreamResponse decls "" 0 "" "?")
              (lib_error "json: unsupported value")
              (sample_obtains_stream unary script_unmarshalable)
              ltac:(repeat constructor) I eq_refl eq_refl eq_refl) as [Hrun Hdone].
  split; [apply sample_obtains_stream|]. split; [reflexivity|]. split; [exact Hclose|].
  split; [|exact (Hdone Hclose)].
  rewrite Hrun. vm_compute. reflexivity.
Defined.

(** [awsModelID_table] on a name outside the table and on one of the table. *)
Lemma awsModelID_table_witness :
  table_lookup "gpt-4" awsModelTable = None
  /\ c_GetString (context good_key "gpt-4" None) CtxKeyRequestModel = "gpt-4"
  /\ awsModelID "gpt-4" = ("", Some (errors_Errorf "unknown model: " "gpt-4"))
  /\ fst (Handler (X := world []) (context good_key "gpt-4" None) response 3 "my-model") = []
  /\ failed (snd (Handler (X := world []) (context good_key "gpt-4" None) response 3 "my-model"))
  /\ fst (StreamHandler (X := world []) (context good_key "gpt-4" None) response) = []
  /\ failed (snd (StreamHandler (X := world []) (context good_key "gpt-4" None) response))
  /\ table_lookup "claude-2.1" awsModelTable = Some "anthropic.claude-v2:1"
  /\ awsModelID "claude-2.1" = ("anthropic.claude-v2:1", None).
Proof.
  destruct (awsModelID_table (X := world []) "gpt-4" (context good_key "gpt-4" None)
              response 3 "my-model") as [_ Hout].
  destruct (Hout eq_refl) as [Hid Hrun].
  destruct (Hrun eq_refl) as (H1 & H2 & H3 & H4 & _).
  destruct (awsModelID_table (X := world []) "claude-2.1" ctx response 3 "my-model") as [Hin _].
  repeat split; try assumption; try reflexivity.
Defined.

(** [Handler_translation] on a run: the native response has 10 input and 5
    output tokens and the model name of the provider; the canonical one has
    the usage (10, 5, 15) and the requested name. *)
Lemma Handler_translation_witness :
  obtains_response (X := world []) ctx client unary_input unary
  /\ exists openaiResp usage,
       Handler (X := world []) ctx response 3 "my-model" =
         ([Call_InvokeModel client unary_input; JSON 200 openaiResp],
          Returned None (Some usage))
       /\ openai.TModel openaiResp = "my-model"
       /\ openai.TUsage openaiResp = usage
       /\ relaymodel.PromptTokens usage = 10
       /\ relaymodel.CompletionTokens usage = 5
       /\ relaymodel.TotalTokens usage = 15.
Proof.
  split; [apply sample_obtains_response|].
  destruct (Handler_translation (X := world []) ctx response 3 "my-model" client unary_input
              unary (sample_obtains_response []))
    as (openaiResp & usage & Hrun & Hmodel & Husage & Hp & Hc & _ & Ht).
  exists openaiResp, usage. repeat split; try assumption.
  rewrite Ht; rewrite Hp, Hc; [reflexivity|].
  unfold int_fits, int_min, int_max. cbn. lia.
Defined.

(** [malformed_key_rejected] on a key without newline. *)
Lemma malformed_key_rejected_witness :
  c_Get bad_ctx CtxKeyChannel = Some (any_Channel bad_channel)
  /\ length (strings_Split (Key bad_channel) newline) <> 2%nat
  /\ newAwsClient bad_channel = Val (None, Some (errors_New "invalid key"))
  /\ Handler (X := world []) bad_ctx response 3 "my-model"
     = ([], Returned (Some (wrapErr (X := world [])
                              (errors_Wrap (errors_New "invalid key") "newAwsClient"))) None)
  /\ StreamHandler (X := world []) bad_ctx response
     = ([], Returned (Some (wrapErr (X := world [])
                              (errors_Wrap (errors_New "invalid key") "newAwsClient"))) None).
Proof.
  assert (Hlen : length (strings_Split (Key bad_channel) newline) <> 2%nat) by (cbn; lia).
  split; [reflexivity|]. split; [exact Hlen|].
  exact (malformed_key_rejected (X := world []) bad_ctx response 3 "my-model" bad_channel
           eq_refl Hlen).
Defined.

End aws_runs.

(** * Further properties of the code *)

(** ** Package [channel] *)

Module channel_more.
Import channel SampleTransport.

Section Transport.
Variable HTTPClient_Do :
  http_Request -> gset handle -> (option http_Response * option error) * gset handle.

(** X1.  [DoRequest] never returns a nil response together with a nil error,
    nor both non-nil: it returns either the response or an error.  It panics
    only when the client answered with a response and no error while the
    outbound request has no body. *)
Theorem DoRequest_outcome_invariant c req closed :
  match fst (DoRequest HTTPClient_Do c req closed) with
  | Returned r => one_of r
  | Panicked =>
      Body req = None
      /\ exists resp, fst (HTTPClient_Do req closed) = (Some resp, None)
  end.
Proof.
  unfold DoRequest.
  destruct (HTTPClient_Do req closed) as [[[resp|] [err|]] closed']; cbn; auto.
  destruct (Body req) as [body|]; cbn; eauto.
Qed.

(** X2.  On the success path the store after [DoRequest] holds, besides what
    the client had closed, exactly the outbound body and the inbound body
    (one handle when the two requests share their body). *)
Theorem DoRequest_success_releases c req closed resp closed' body :
  HTTPClient_Do req closed = ((Some resp, None), closed') ->
  Body req = Some body ->
  exists closed'',
    DoRequest HTTPClient_Do c req closed = (Returned (Some resp, None), closed'')
    /\ forall h, h ∈ closed'' <-> h = body \/ h = InboundBody c \/ h ∈ closed'.
Proof.
  intros HDo Hbody. unfold DoRequest. rewrite HDo, Hbody.
  eexists. split; [reflexivity|]. intros h. unfold Close.
  rewrite !elem_of_union, !elem_of_singleton. tauto.
Qed.

End Transport.

(** X3.  [SetupCommonRequestHeader] is idempotent: setting the headers up a
    second time changes nothing. *)
Theorem SetupCommonRequestHeader_idempotent c req meta :
  SetupCommonRequestHeader c (SetupCommonRequestHeader c req meta) meta
  = SetupCommonRequestHeader c req meta.
Proof.
  unfold SetupCommonRequestHeader. cbn [Header Method URL Body]. f_equal.
  unfold Header_Set.
  destruct (IsStream meta && String.eqb (Header_Get (Header (Request c)) "Accept") "");
    apply map_eq; intros key; rewrite !lookup_insert; repeat case_decide; congruence.
Qed.

(** X4.  After [SetupCommonRequestHeader] both headers are present with
    exactly one value, whatever values (none, one or several) the native
    request and the inbound request had for them: an inbound request
    without Content-Type gives the native request an empty Content-Type. *)
Theorem SetupCommonRequestHeader_single_valued c req meta :
  Header (SetupCommonRequestHeader c req meta) !! "Content-Type"
  = Some [Header_Get (Header (Request c)) "Content-Type"]
  /\ Header (SetupCommonRequestHeader c req meta) !! "Accept"
     = Some [if IsStream meta && String.eqb (Header_Get (Header (Request c)) "Accept") ""
             then "text/event-stream" else Header_Get (Header (Request c)) "Accept"]
  /\ (Header (Request c) !! "Content-Type" = None ->
      Header (SetupCommonRequestHeader c req meta) !! "Content-Type" = Some [""]).
Proof.
  unfold SetupCommonRequestHeader. cbn [Header]. unfold Header_Set.
  assert (Hct : forall h : gmap string (list string),
             h !! "Content-Type" = None -> Header_Get h "Content-Type" = "")
    by (intros h Hh; unfold Header_Get; now rewrite Hh).
  destruct (IsStream meta && String.eqb (Header_Get (Header (Request c)) "Accept") "").
  - rewrite lookup_insert_eq. rewrite !(lookup_insert_ne _ "Accept") by discriminate.
    rewrite lookup_insert_eq. repeat split. intros Hnone. now rewrite (Hct _ Hnone).
  - rewrite lookup_insert_eq. rewrite !(lookup_insert_ne _ "Accept") by discriminate.
    rewrite lookup_insert_eq. repeat split. intros Hnone. now rewrite (Hct _ Hnone).
Qed.

Section Helper.
Variable HTTPClient_Do :
  http_Request -> gset handle -> (option http_Response * option error) * gset handle.
Variable method_error : string -> option error.
Variable url_Parse_error : string -> option error.
Context (a : Adaptor).

(** X5.  When the adaptor cannot tell the URL, when net/http refuses the
    method or the URL, or when the adaptor fails to set the headers up,
    [DoRequestHelper] returns the wrapped error without the client being
    asked: the answer is the same for every client, and the store is
    untouched. *)
Theorem DoRequestHelper_stage_failure c meta requestBody closed :
  (forall url err, GetRequestURL meta = (url, Some err) ->
     DoRequestHelper HTTPClient_Do method_error url_Parse_error a c meta requestBody closed
     = (Returned (None, Some (errors_Wrap err "get request url failed")), closed))
  /\ (forall url err,
        GetRequestURL meta = (url, None) ->
        http_NewRequest method_error url_Parse_error (Method (Request c)) url requestBody
        = inl err ->
        DoRequestHelper HTTPClient_Do method_error url_Parse_error a c meta requestBody closed
        = (Returned (None, Some (errors_Wrap err "new request failed")), closed))
  /\ (forall url req0 req err,
        GetRequestURL meta = (url, None) ->
        http_NewRequest method_error url_Parse_error (Method (Request c)) url requestBody
        = inr req0 ->
        SetupRequestHeader c req0 meta = (req, Some err) ->
        DoRequestHelper HTTPClient_Do method_error url_Parse_error a c meta requestBody closed
        = (Returned (None, Some (errors_Wrap err "setup request header failed")), closed)).
Proof.
  unfold DoRequestHelper. repeat split.
  - intros url err ->. reflexivity.
  - intros url err -> ->. reflexivity.
  - intros url req0 req err -> -> ->. reflexivity.
Qed.

(** X6.  When every stage succeeds and the client answers with a response,
    [DoRequestHelper] returns that response unwrapped, and the body of the
    request it sent and the inbound body are closed. *)
Theorem DoRequestHelper_success c meta requestBody closed url req0 req resp closed' body :
  GetRequestURL meta = (url, None) ->
  http_NewRequest method_error url_Parse_error (Method (Request c)) url requestBody = inr req0 ->
  SetupRequestHeader c req0 meta = (req, None) ->
  HTTPClient_Do req closed = ((Some resp, None), closed') ->
  Body req = Some body ->
  exists closed'',
    DoRequestHelper HTTPClient_Do method_error url_Parse_error a c meta requestBody closed
    = (Returned (Some resp, None), closed'')
    /\ body ∈ closed'' /\ InboundBody c ∈ closed'' /\ closed' ⊆ closed''.
Proof.
  intros Hurl Hnew Hset HDo Hbody. unfold DoRequestHelper, DoRequest.
  rewrite Hurl, Hnew, Hset, HDo, Hbody. eexists. split; [reflexivity|].
  unfold Close. repeat split.
  - apply elem_of_union_r, elem_of_union_l, elem_of_singleton. reflexivity.
  - apply elem_of_union_l, elem_of_singleton. reflexivity.
  - intros h Hh. apply elem_of_union_r, elem_of_union_r. exact Hh.
Qed.

(** X7.  [DoRequestHelper] returns either a response or an error, never
    both and never neither; and every error it returns is a wrapped one,
    under one of its four stage messages, whose text ends with the text of
    its cause. *)
Theorem DoRequestHelper_outcome_invariant c meta requestBody closed :
  match fst (DoRequestHelper HTTPClient_Do method_error url_Parse_error a c meta
                             requestBody closed) with
  | Returned (Some _, None) => True
  | Returned (None, Some e) =>
      exists cause msg, e = errors_Wrap cause msg /\ In msg stage_messages
                        /\ Error e = msg +:+ ": " +:+ Error cause
  | Returned _ => False
  | Panicked => True
  end.
Proof.
  unfold DoRequestHelper, stage_messages.
  destruct (GetRequestURL meta) as [url [err|]]; cbn; [eexists _, _; cbn; eauto|].
  destruct (http_NewRequest _ _ _ _ _) as [err|req0]; cbn; [eexists _, _; cbn; eauto 6|].
  destruct (SetupRequestHeader c req0 meta) as [req [err|]]; cbn; [eexists _, _; cbn; eauto 7|].
  unfold DoRequest.
  destruct (HTTPClient_Do req closed) as [[[resp|] [err|]] closed']; cbn;
    try (eexists _, _; cbn; now eauto 8).
  destruct (Body req) as [body|]; cbn; exact I.
Qed.

End Helper.

(** [DoRequest_success_releases] on a request that shares its body with the
    inbound request. *)
Lemma DoRequest_success_releases_witness :
  answering_client {| Method := "POST"; URL := "u"; Header := ∅; Body := Some 2%nat |} ∅
  = ((Some {| StatusCode := 200; RespHeader := ∅; RespBody := 3%nat |}, None), ∅)
  /\ exists closed'',
       DoRequest answering_client inbound
                 {| Method := "POST"; URL := "u"; Header := ∅; Body := Some 2%nat |} ∅
       = (Returned (Some {| StatusCode := 200; RespHeader := ∅; RespBody := 3%nat |}, None),
          closed'')
       /\ forall h, h ∈ closed'' <-> h = 2%nat \/ h = InboundBody inbound \/ h ∈ (∅ : gset handle).
Proof.
  split; [reflexivity|].
  exact (DoRequest_success_releases answering_client inbound
           {| Method := "POST"; URL := "u"; Header := ∅; Body := Some 2%nat |} ∅
           {| StatusCode := 200; RespHeader := ∅; RespBody := 3%nat |} ∅ 2%nat eq_refl eq_refl).
Defined.

(** [DoRequestHelper_stage_failure] on an adaptor that cannot tell its URL. *)
Lemma DoRequestHelper_stage_failure_witness :
  GetRequestURL (Adaptor := lost_adaptor) streaming = ("", Some (lib_error "no base url"))
  /\ DoRequestHelper answering_client any_method any_url lost_adaptor inbound streaming
                     (Some 2%nat) ∅
     = (Returned (None, Some (errors_Wrap (lib_error "no base url") "get request url failed")), ∅).
Proof.
  split; [reflexivity|].
  exact (proj1 (DoRequestHelper_stage_failure answering_client any_method any_url lost_adaptor
                  inbound streaming (Some 2%nat) ∅)
               "" (lib_error "no base url") eq_refl).
Defined.

(** [DoRequestHelper_success] on the plain adaptor. *)
Lemma DoRequestHelper_success_witness :
  exists closed'',
    DoRequestHelper answering_client any_method any_url plain_adaptor inbound streaming
                    (Some 2%nat) ∅
    = (Returned (Some {| StatusCode := 200; RespHeader := ∅; RespBody := 3%nat |}, None),
       closed'')
    /\ 2%nat ∈ closed'' /\ InboundBody inbound ∈ closed'' /\ (∅ : gset handle) ⊆ closed''.
Proof.
  exact (DoRequestHelper_success answering_client any_method any_url plain_adaptor inbound
           streaming (Some 2%nat) ∅ "https://upstream.example/v1/messages"
           {| Method := "POST"; URL := "https://upstream.example/v1/messages"; Header := ∅;
              Body := Some 2%nat |}
           (SetupCommonRequestHeader inbound
              {| Method := "POST"; URL := "https://upstream.example/v1/messages"; Header := ∅;
                 Body := Some 2%nat |} streaming)
           {| StatusCode := 200; RespHeader := ∅; RespBody := 3%nat |} ∅ 2%nat
           eq_refl eq_refl eq_refl eq_refl eq_refl).
Defined.

End channel_more.

(** ** Splitting and joining *)

Lemma strings_Split_cons (s : string) (sep : ascii) :
  exists piece pieces, strings_Split s sep = piece :: pieces.
Proof.
  destruct s as [|ch rest]; cbn; [eauto|].
  destruct (Ascii.eqb ch sep); [eauto|].
  destruct (strings_Split rest sep); eauto.
Qed.

Lemma strings_Join_Split (s : string) (sep : ascii) :
  strings_Join (strings_Split s sep) sep = s.
Proof.
  induction s as [|ch rest IH]; [reflexivity|]. cbn [strings_Split].
  destruct (Ascii.eqb_spec ch sep) as [->|Hne].
  - destruct (strings_Split_cons rest sep) as (piece & pieces & Hs).
    rewrite Hs in IH |- *. cbn [strings_Join] in IH |- *. cbn. now rewrite IH.
  - destruct (strings_Split_cons rest sep) as (piece & pieces & Hs). rewrite Hs in IH |- *.
    destruct pieces as [|piece' pieces]; cbn [strings_Join] in IH |- *; cbn; now rewrite <- IH.
Qed.

Lemma strings_Split_pieces (s : string) (sep : ascii) :
  Forall (fun piece => occurrences sep piece = O) (strings_Split s sep).
Proof.
  induction s as [|ch rest IH]; cbn [strings_Split]; [repeat constructor|].
  destruct (Ascii.eqb ch sep) eqn:Hch; [constructor; [reflexivity|exact IH]|].
  destruct (strings_Split rest sep) as [|piece pieces]; [repeat constructor; cbn; now rewrite Hch|].
  inversion IH as [|? ? Hp Hps]; subst. constructor; [|exact Hps]. cbn. now rewrite Hch.
Qed.

Lemma strings_Split_clean (s : string) (sep : ascii) :
  occurrences sep s = O -> strings_Split s sep = [s].
Proof.
  induction s as [|ch rest IH]; cbn; [reflexivity|].
  destruct (Ascii.eqb ch sep); [discriminate|]. intros H. now rewrite (IH H).
Qed.

Lemma strings_Split_app (a b : string) (sep : ascii) :
  occurrences sep a = O ->
  strings_Split (a +:+ String sep b) sep = a :: strings_Split b sep.
Proof.
  induction a as [|ch rest IH]; simpl.
  - rewrite Ascii.eqb_refl. reflexivity.
  - destruct (Ascii.eqb ch sep); [discriminate|]. intros H. now rewrite (IH H).
Qed.

(** ** Package [aws] *)

Module aws_more.
Import aws aws_spec aws_properties Sample.

Section Handlers.
Context {D : Decls} {X : Collaborators}.

(** What a client returned by [newAwsClient] tells about the channel. *)
Lemma newAwsClient_inv channel cli :
  newAwsClient channel = Val (Some cli, None) ->
  BaseURL channel = Some (Region cli)
  /\ Key channel = AccessKeyID cli +:+ String newline (SecretAccessKey cli)
  /\ occurrences newline (AccessKeyID cli) = O
  /\ occurrences newline (SecretAccessKey cli) = O
  /\ SessionToken cli = "".
Proof.
  unfold newAwsClient.
  pose proof (strings_Join_Split (Key channel) newline) as Hjoin.
  pose proof (strings_Split_pieces (Key channel) newline) as Hpieces.
  destruct (strings_Split (Key channel) newline) as [|ak [|sk [|more rest]]]; cbn; try discriminate.
  destruct (BaseURL channel) as [region|]; [|discriminate].
  intros H. injection H as <-. cbn in Hjoin |- *.
  inversion Hpieces as [|? ? Hak Hrest]; subst. inversion Hrest as [|? ? Hsk _]; subst.
  repeat split; auto.
Qed.

(** X8.  [newAwsClient] succeeds exactly on a channel with a region and a key
    made of two pieces around one newline, and the client it returns has the
    region, the first piece as access key, the second as secret and an empty
    session token. *)
Theorem newAwsClient_characterised channel cli :
  newAwsClient channel = Val (Some cli, None)
  <-> BaseURL channel = Some (Region cli)
      /\ Key channel = AccessKeyID cli +:+ String newline (SecretAccessKey cli)
      /\ occurrences newline (AccessKeyID cli) = O
      /\ occurrences newline (SecretAccessKey cli) = O
      /\ SessionToken cli = "".
Proof.
  split; [apply newAwsClient_inv|].
  intros (Hregion & Hkey & Hak & Hsk & Htoken). unfold newAwsClient.
  rewrite Hkey, strings_Split_app, (strings_Split_clean _ _ Hsk) by assumption.
  cbn. rewrite Hregion. destruct cli as [region ak sk token]; cbn in *. now subst token.
Qed.

(** X9.  On a channel whose key is well formed but whose region pointer is
    nil, [newAwsClient] panics, and so do both handlers, before any
    effect. *)
Theorem nil_region_panics c resp promptTokens modelName channel :
  c_Get c CtxKeyChannel = Some (any_Channel channel) ->
  occurrences newline (Key channel) = 1%nat ->
  BaseURL channel = None ->
  newAwsClient channel = Panics
  /\ Handler c resp promptTokens modelName = ([], Panicked)
  /\ StreamHandler c resp = ([], Panicked).
Proof.
  intros Hch Hkey Hregion.
  assert (Hcli : newAwsClient channel = Panics).
  { unfold newAwsClient.
    pose proof (strings_Split_length (Key channel) newline) as Hlen. rewrite Hkey in Hlen.
    destruct (strings_Split (Key channel) newline) as [|ak [|sk [|more rest]]]; try discriminate.
    cbn. now rewrite Hregion. }
  split; [exact Hcli|].
  unfold Handler, StreamHandler. rewrite Hch. cbn [assert_Channel lift_go ret bind].
  rewrite Hcli. split; reflexivity.
Qed.

(** X10.  [awsModelID] is injective on the names it accepts: two requested
    names with the same native identifier are the same name. *)
Theorem awsModelID_injective (name1 name2 native : string) :
  awsModelID name1 = (native, None) ->
  awsModelID name2 = (native, None) ->
  name1 = name2.
Proof.
  unfold awsModelID. intros H1 H2.
  repeat match type of H1 with
         | context [String.eqb name1 ?l] => destruct (String.eqb_spec name1 l)
         end; try discriminate H1;
    repeat match type of H2 with
           | context [String.eqb name2 ?l] => destruct (String.eqb_spec name2 l)
           end; try discriminate H2; congruence.
Qed.

(** *** The paths through the handlers *)

(** The three ways [Handler] can go: it stops before the provider call; it
    makes the call and fails on the answer; it obtains the native
    response. *)
Lemma Handler_shape c resp promptTokens modelName :
  (fst (Handler c resp promptTokens modelName) = []
   /\ (snd (Handler c resp promptTokens modelName) = Panicked
       \/ exists e, snd (Handler c resp promptTokens modelName)
                    = Returned (Some (wrapErr e)) None))
  \/ (exists cli input e,
        builds_request c cli (ModelId input) (Body input)
        /\ Accept input = "application/json" /\ ContentType input = "application/json"
        /\ Handler c resp promptTokens modelName
           = ([Call_InvokeModel cli input], Returned (Some (wrapErr e)) None))
  \/ (exists cli input claudeResponse, obtains_response c cli input claudeResponse).
Proof.
  unfold Handler.
  destruct (awsModelID (c_GetString c CtxKeyRequestModel)) as [modelId [e|]] eqn:Hid.
  - left.
    destruct (c_Get c CtxKeyChannel) as [[channel| | |]|];
      cbn [assert_Channel lift_go ret Return bind run fst snd app]; eauto.
    destruct (newAwsClient channel) as [[[cli|] [e'|]]|];
      cbn [lift_go ret Return bind run fst snd app]; eauto.
  - destruct (c_Get c CtxKeyChannel) as [[channel| | |]|] eqn:Hch;
      cbn [assert_Channel lift_go ret Return bind run fst snd app]; eauto.
    destruct (newAwsClient channel) as [[[cli|] [e'|]]|] eqn:Hcli;
      cbn [lift_go ret Return bind run fst snd app]; eauto.
    destruct (c_Get c CtxKeyConvertedRequest) as [[|claudeReq| |]|] eqn:Hreq;
      cbn [assert_Request lift_go ret Return bind run fst snd app]; eauto.
    destruct (copier_Copy _ claudeReq) as [e'|awsClaudeReq] eqn:Hcopy;
      cbn [lift_go ret Return bind run fst snd app]; eauto.
    destruct (json_Marshal_Request awsClaudeReq) as [e'|body] eqn:Hbody;
      cbn [lift_go ret Return bind run fst snd app perform ModelId Accept ContentType Body]; eauto.
    assert (Hbuilt : builds_request c cli modelId body)
      by (exists channel, claudeReq, awsClaudeReq; auto 10).
    destruct (InvokeModel cli _) as [e'|awsResp] eqn:Hcall;
      cbn [lift_go ret Return bind run fst snd app].
    { right; left. exists cli, {| ModelId := modelId; Accept := "application/json";
                        ContentType := "application/json"; Body := body |}. eexists.
      split; [exact Hbuilt|]. split; [reflexivity|]. split; reflexivity. }
    destruct (json_Unmarshal_Response awsResp) as [e'|claudeResponse] eqn:Hdec;
      cbn [lift_go ret Return bind run fst snd app].
    { right; left. exists cli, {| ModelId := modelId; Accept := "application/json";
                        ContentType := "application/json"; Body := body |}. eexists.
      split; [exact Hbuilt|]. split; [reflexivity|]. split; reflexivity. }
    right; right.
    exists cli, {| ModelId := modelId; Accept := "application/json";
                        ContentType := "application/json"; Body := body |}, claudeResponse.
    split; [exact Hbuilt|]. repeat split. exists awsResp. split; [exact Hcall|exact Hdec].
Qed.

(** The three ways [StreamHandler] can go: it stops before the provider
    call; the call fails; it obtains the stream. *)
Lemma StreamHandler_shape c resp :
  (fst (StreamHandler c resp) = []
   /\ (snd (StreamHandler c resp) = Panicked
       \/ exists e, snd (StreamHandler c resp) = Returned (Some (wrapErr e)) None))
  \/ (exists cli input e,
        builds_request c cli (SModelId input) (SBody input)
        /\ SAccept input = "application/json" /\ SContentType input = "application/json"
        /\ StreamHandler c resp
           = ([Call_InvokeModelWithResponseStream cli input],
              Returned (Some (wrapErr e)) None))
  \/ (exists cli input script, obtains_stream c cli input script).
Proof.
  unfold StreamHandler.
  destruct (awsModelID (c_GetString c CtxKeyRequestModel)) as [modelId [e|]] eqn:Hid.
  - left.
    destruct (c_Get c CtxKeyChannel) as [[channel| | |]|];
      cbn [assert_Channel lift_go ret Return bind run fst snd app]; eauto.
    destruct (newAwsClient channel) as [[[cli|] [e'|]]|];
      cbn [lift_go ret Return bind run fst snd app]; eauto.
  - destruct (c_Get c CtxKeyChannel) as [[channel| | |]|] eqn:Hch;
      cbn [assert_Channel lift_go ret Return bind run fst snd app]; eauto.
    destruct (newAwsClient channel) as [[[cli|] [e'|]]|] eqn:Hcli;
      cbn [lift_go ret Return bind run fst snd app]; eauto.
    destruct (c_Get c CtxKeyConvertedRequest) as [[|claudeReq| |]|] eqn:Hreq;
      cbn [assert_Request lift_go ret Return bind run fst snd app]; eauto.
    destruct (copier_Copy _ claudeReq) as [e'|awsClaudeReq] eqn:Hcopy;
      cbn [lift_go ret Return bind run fst snd app]; eauto.
    destruct (json_Marshal_Request awsClaudeReq) as [e'|body] eqn:Hbody;
      cbn [lift_go ret Return bind run fst snd app perform
           SModelId SAccept SContentType SBody]; eauto.
    assert (Hbuilt : builds_request c cli modelId body)
      by (exists channel, claudeReq, awsClaudeReq; auto 10).
    destruct (InvokeModelWithResponseStream cli _) as [e'|script] eqn:Hcall;
      cbn [lift_go ret Return bind run fst snd app].
    { right; left. exists cli, {| SModelId := modelId; SAccept := "application/json";
                        SContentType := "application/json"; SBody := body |}. eexists.
      split; [exact Hbuilt|]. split; [reflexivity|]. split; reflexivity. }
    right; right.
    exists cli, {| SModelId := modelId; SAccept := "application/json";
                        SContentType := "application/json"; SBody := body |}, script.
    split; [exact Hbuilt|]. repeat split. exact Hcall.
Qed.

(** A step performs loop effects only. *)
Lemma step_loop_effects c createdTime st recv :
  Forall loop_effect (snd (fst (step c createdTime st recv))).
Proof.
  destruct recv as [[bytes|tag|]|]; cbn [step]; try (repeat constructor).
  destruct (json_Decode_StreamResponse bytes) as [err|claudeResp]; [repeat constructor|].
  destruct (StreamResponseClaude2OpenAI claudeResp) as [[response|] [meta|]];
    try (repeat constructor).
  destruct (json_Marshal_Chunk _); repeat constructor.
Qed.

(** The loop performs loop effects only. *)
Lemma pump_loop_effects c createdTime events : forall gone st,
  Forall loop_effect (fst (c_Stream c createdTime gone events st)).
Proof.
  induction events as [|event events IH]; intros gone st.
  - destruct (decide (gone = Some O)) as [->|Hg].
    + rewrite c_Stream_gone. constructor.
    + rewrite c_Stream_closed by assumption. repeat constructor.
  - destruct (decide (gone = Some O)) as [->|Hg].
    + rewrite c_Stream_gone. constructor.
    + rewrite c_Stream_cons by assumption.
      pose proof (step_loop_effects c createdTime st (Some event)) as Hstep.
      destruct (step c createdTime st (Some event)) as [[st' fx] keepOpen]. cbn [fst snd] in Hstep.
      destruct keepOpen; [|exact Hstep].
      specialize (IH (Nat.pred <$> gone) st').
      destruct (c_Stream c createdTime (Nat.pred <$> gone) events st') as [fx' st''].
      cbn [fst] in IH |- *. apply Forall_app. split; assumption.
Qed.

(** X11.  Without a channel under its context key, both handlers return the
    error "channel not found" under status 500, with no usage and before
    any effect. *)
Theorem missing_channel_rejected c resp promptTokens modelName :
  c_Get c CtxKeyChannel = None ->
  Handler c resp promptTokens modelName
  = ([], Returned (Some (wrapErr (errors_New "channel not found"))) None)
  /\ StreamHandler c resp
     = ([], Returned (Some (wrapErr (errors_New "channel not found"))) None).
Proof.
  intros Hch. unfold Handler, StreamHandler. rewrite Hch. split; reflexivity.
Qed.

(** X12.  With channel, client and model in place but no converted request
    under its context key, both handlers return the error "request not
    found" and the provider is not called. *)
Theorem missing_request_rejected c resp promptTokens modelName channel cli modelId :
  c_Get c CtxKeyChannel = Some (any_Channel channel) ->
  newAwsClient channel = Val (Some cli, None) ->
  awsModelID (c_GetString c CtxKeyRequestModel) = (modelId, None) ->
  c_Get c CtxKeyConvertedRequest = None ->
  Handler c resp promptTokens modelName
  = ([], Returned (Some (wrapErr (errors_New "request not found"))) None)
  /\ StreamHandler c resp
     = ([], Returned (Some (wrapErr (errors_New "request not found"))) None).
Proof.
  intros Hch Hcli Hid Hreq. unfold Handler, StreamHandler.
  rewrite Hch. cbn [assert_Channel lift_go ret bind].
  rewrite Hcli. cbn [lift_go ret bind]. rewrite Hid. cbn [ret bind].
  rewrite Hreq. split; reflexivity.
Qed.

(** X13.  Whatever the context and the collaborators, a handler that does
    not panic returns exactly one of error and usage, and the error is
    under status 500. *)
Theorem handlers_result_well_formed c resp promptTokens modelName :
  well_formed (snd (Handler c resp promptTokens modelName))
  /\ well_formed (snd (StreamHandler c resp)).
Proof.
  split.
  - destruct (Handler_shape c resp promptTokens modelName)
      as [[_ [->|[e ->]]]|[(cli & input & e & _ & _ & _ & ->)|(cli & input & cr & Hr)]];
      try exact I; try reflexivity.
    rewrite (Handler_run c resp promptTokens modelName cli input cr Hr). exact I.
  - destruct (StreamHandler_shape c resp)
      as [[_ [->|[e ->]]]|[(cli & input & e & _ & _ & _ & ->)|(cli & input & script & Hs)]];
      try exact I; try reflexivity.
    rewrite (StreamHandler_run c resp cli input script Hs). exact I.
Qed.

(** X14.  The effects of [Handler] are nothing, or the provider call alone,
    or the provider call followed by one JSON render under status 200; it
    renders exactly when it succeeds, and what it renders carries the usage
    it returns and the requested model name. *)
Theorem Handler_trace c resp promptTokens modelName :
  (fst (Handler c resp promptTokens modelName) = []
   /\ failed (snd (Handler c resp promptTokens modelName)))
  \/ (exists cli input,
        fst (Handler c resp promptTokens modelName) = [Call_InvokeModel cli input]
        /\ failed (snd (Handler c resp promptTokens modelName)))
  \/ (exists cli input openaiResp usage,
        Handler c resp promptTokens modelName
        = ([Call_InvokeModel cli input; JSON 200 openaiResp], Returned None (Some usage))
        /\ openai.TUsage openaiResp = usage /\ openai.TModel openaiResp = modelName).
Proof.
  destruct (Handler_shape c resp promptTokens modelName)
    as [[Hfx [Hr|[e Hr]]]|[(cli & input & e & _ & _ & _ & Hrun)|(cli & input & cr & Hr)]].
  - left. rewrite Hfx, Hr. split; [reflexivity|exact I].
  - left. rewrite Hfx, Hr. split; [reflexivity|exact I].
  - right; left. exists cli, input. rewrite Hrun. split; [reflexivity|exact I].
  - right; right. exists cli, input. eexists _, _.
    split; [exact (Handler_run c resp promptTokens modelName cli input cr Hr)|].
    split; reflexivity.
Qed.

(** X15.  Every provider call of either handler is made with the native
    identifier the table gives for the requested model, with the JSON
    content types, and by a client whose region, access key and secret are
    the region of the channel and the two pieces of its key. *)
Theorem provider_call_arguments c resp promptTokens modelName cli :
  (forall input,
     In (Call_InvokeModel cli input) (fst (Handler c resp promptTokens modelName)) ->
     table_lookup (c_GetString c CtxKeyRequestModel) awsModelTable = Some (ModelId input)
     /\ Accept input = "application/json" /\ ContentType input = "application/json"
     /\ exists channel,
          c_Get c CtxKeyChannel = Some (any_Channel channel)
          /\ BaseURL channel = Some (Region cli)
          /\ Key channel = AccessKeyID cli +:+ String newline (SecretAccessKey cli))
  /\ (forall input,
        In (Call_InvokeModelWithResponseStream cli input) (fst (StreamHandler c resp)) ->
        table_lookup (c_GetString c CtxKeyRequestModel) awsModelTable = Some (SModelId input)
        /\ SAccept input = "application/json" /\ SContentType input = "application/json"
        /\ exists channel,
             c_Get c CtxKeyChannel = Some (any_Channel channel)
             /\ BaseURL channel = Some (Region cli)
             /\ Key channel = AccessKeyID cli +:+ String newline (SecretAccessKey cli)).
Proof.
  assert (Hbuilt : forall modelId body,
            builds_request c cli modelId body ->
            table_lookup (c_GetString c CtxKeyRequestModel) awsModelTable = Some modelId
            /\ exists channel,
                 c_Get c CtxKeyChannel = Some (any_Channel channel)
                 /\ BaseURL channel = Some (Region cli)
                 /\ Key channel = AccessKeyID cli +:+ String newline (SecretAccessKey cli)).
  { intros modelId body (channel & claudeReq & awsClaudeReq & Hch & Hcli & Hid & _).
    split.
    - rewrite awsModelID_lookup in Hid.
      destruct (table_lookup _ awsModelTable); [congruence|discriminate].
    - exists channel. destruct (newAwsClient_inv channel cli Hcli) as (? & ? & _). auto. }
  split; intros input Hin.
  - destruct (Handler_shape c resp promptTokens modelName)
      as [[Hfx _]|[(cli' & input' & e & Hb & Ha & Hc & Hrun)|(cli' & input' & cr & Hr)]].
    + rewrite Hfx in Hin. destruct Hin.
    + rewrite Hrun in Hin. destruct Hin as [Hin|[]]. injection Hin as -> ->.
      destruct (Hbuilt _ _ Hb). auto.
    + rewrite (Handler_run c resp promptTokens modelName cli' input' cr Hr) in Hin.
      destruct Hin as [Hin|[Hin|[]]]; [|discriminate Hin]. injection Hin as -> ->.
      destruct Hr as (Hb & Ha & Hc & _). destruct (Hbuilt _ _ Hb). auto.
  - destruct (StreamHandler_shape c resp)
      as [[Hfx _]|[(cli' & input' & e & Hb & Ha & Hc & Hrun)|(cli' & input' & script & Hs)]].
    + rewrite Hfx in Hin. destruct Hin.
    + rewrite Hrun in Hin. destruct Hin as [Hin|[]]. injection Hin as -> ->.
      destruct (Hbuilt _ _ Hb). auto.
    + rewrite (StreamHandler_run c resp cli' input' script Hs) in Hin. cbn [fst] in Hin.
      destruct Hin as [Hin|[Hin|Hin]]; [|discriminate Hin|].
      * injection Hin as -> ->. destruct Hs as (Hb & Ha & Hc & _).
        destruct (Hbuilt _ _ Hb). auto.
      * apply in_app_or in Hin. destruct Hin as [Hin|[Hin|[]]]; [|discriminate Hin].
        pose proof (pump_loop_effects c helper_GetTimestamp script (ClientGone c)
                      {| usage := relaymodel.Usage_zero; id := "" |}) as Hloop.
        rewrite List.Forall_forall in Hloop. destruct (Hloop _ Hin).
Qed.

(** X16.  The effects of [StreamHandler] are nothing, or the provider call
    alone, or the provider call, the event-stream content type, effects of
    the loop (frames, terminator, log lines) and last the close of the
    stream: the stream is closed once, on every way out of the loop, and
    nothing is written to the client unless the stream was obtained. *)
Theorem StreamHandler_trace c resp :
  (fst (StreamHandler c resp) = [] /\ failed (snd (StreamHandler c resp)))
  \/ (exists cli input,
        fst (StreamHandler c resp) = [Call_InvokeModelWithResponseStream cli input]
        /\ failed (snd (StreamHandler c resp)))
  \/ (exists cli input fx usage,
        StreamHandler c resp
        = (Call_InvokeModelWithResponseStream cli input
             :: Writer_Header_Set "Content-Type" "text/event-stream"
             :: fx ++ [Stream_Close],
           Returned None (Some usage))
        /\ Forall loop_effect fx).
Proof.
  destruct (StreamHandler_shape c resp)
    as [[Hfx [Hr|[e Hr]]]|[(cli & input & e & _ & _ & _ & Hrun)|(cli & input & script & Hs)]].
  - left. rewrite Hfx, Hr. split; [reflexivity|exact I].
  - left. rewrite Hfx, Hr. split; [reflexivity|exact I].
  - right; left. exists cli, input. rewrite Hrun. split; [reflexivity|exact I].
  - right; right. exists cli, input. eexists _, _.
    split; [exact (StreamHandler_run c resp cli input script Hs)|].
    apply pump_loop_effects.
Qed.

(** *** The stream loop *)

(** Frames written by the loop, against the events that may give one. *)
Lemma frames_bound c createdTime events : forall gone st,
  (length (List.filter is_frame (fst (c_Stream c createdTime gone events st)))
   <= length (List.filter may_render (observed gone events)))%nat.
Proof.
  induction events as [|event events IH]; intros gone st.
  - destruct (decide (gone = Some O)) as [->|Hg].
    + rewrite c_Stream_gone. cbn. lia.
    + rewrite c_Stream_closed by assumption. cbn. lia.
  - destruct (decide (gone = Some O)) as [->|Hg].
    + rewrite c_Stream_gone. cbn. lia.
    + rewrite c_Stream_cons, observed_cons by assumption.
      assert (Hmr : may_render event
                    = (keeps_open event
                       && match metadata_of event with None => true | Some _ => false end))
        by reflexivity.
      destruct (step_cases c createdTime st event) as [log Hk Hm Hlog|meta Hk Hm|Hk Hm| |msg Hk Hm];
        try match goal with H : keeps_open event = true |- _ => rename H into Hk end;
        try match goal with H : metadata_of event = None |- _ => rename H into Hm end;
        rewrite Hk, Hm in Hmr; cbn [andb] in Hmr; rewrite Hk; cbn [List.filter]; rewrite Hmr;
        try (match goal with
             | |- context [c_Stream c createdTime ?g events ?s0] =>
                 specialize (IH g s0); destruct (c_Stream c createdTime g events s0)
             end; cbn [fst List.filter is_frame app length] in IH |- *; lia).
      cbn [fst List.filter length]. destruct log; cbn in Hlog |- *; try lia; discriminate Hlog.
Qed.

Lemma observed_length g : forall events,
  (length (observed (Some g) events) <= g)%nat.
Proof.
  induction g as [|g IH]; intros [|event events]; cbn; try lia.
  destruct (keeps_open event); cbn; [specialize (IH events)|]; lia.
Qed.

(** A loop the client leaves no later than the last event never writes the
    terminator. *)
Lemma pump_gone_no_done c createdTime events : forall g st,
  (g <= length events)%nat ->
  Forall (fun e => e <> RenderDone) (fst (c_Stream c createdTime (Some g) events st)).
Proof.
  induction events as [|event events IH]; intros g st Hg.
  - cbn in Hg. replace g with O by lia. rewrite c_Stream_gone. constructor.
  - destruct g as [|g]; [rewrite c_Stream_gone; constructor|].
    rewrite c_Stream_cons by congruence. cbn [fmap option_fmap option_map Nat.pred].
    cbn in Hg.
    destruct (step_cases c createdTime st event) as [log Hk Hm Hlog|meta Hk Hm|Hk Hm| |msg Hk Hm];
      try (match goal with
           | |- context [c_Stream c createdTime ?g' events ?s0] =>
               specialize (IH g s0 ltac:(lia)); destruct (c_Stream c createdTime g' events s0)
           end; cbn [fst app] in IH |- *; repeat (constructor; [discriminate|]); exact IH).
    cbn [fst]. constructor; [|constructor]. intros ->. discriminate Hlog.
Qed.

(** X17.  When the client leaves before the loop could observe the closure
    of the channel, that is after at most as many steps as there are events,
    no terminator is written and at most that many frames are. *)
Theorem StreamHandler_client_gone c resp cli input script g :
  obtains_stream c cli input script ->
  ClientGone c = Some g ->
  (g <= length script)%nat ->
  ~ In RenderDone (fst (StreamHandler c resp))
  /\ (length (List.filter is_frame (fst (StreamHandler c resp))) <= g)%nat.
Proof.
  intros Hs Hgone Hg. rewrite (StreamHandler_run c resp cli input script Hs). cbn [fst].
  rewrite Hgone. set (st0 := {| usage := relaymodel.Usage_zero; id := "" |}). split.
  - intros [Hin|[Hin|Hin]]; try discriminate Hin.
    apply in_app_or in Hin. destruct Hin as [Hin|[Hin|[]]]; [|discriminate Hin].
    pose proof (pump_gone_no_done c helper_GetTimestamp script g st0 Hg) as Hno.
    rewrite List.Forall_forall in Hno. exact (Hno _ Hin eq_refl).
  - cbn [List.filter is_frame]. rewrite List.filter_app. cbn [List.filter is_frame].
    rewrite length_app. cbn [length].
    pose proof (frames_bound c helper_GetTimestamp script (Some g) st0) as Hb.
    pose proof (List.filter_length_le may_render (observed (Some g) script)) as Hf.
    pose proof (observed_length g script) as Ho. lia.
Qed.

(** X18.  The loop writes at most one frame for each event it pulls, and
    none for an event that carries metadata, even if that event decodes to
    content as well. *)
Theorem StreamHandler_frames_bound c resp cli input script :
  obtains_stream c cli input script ->
  (length (List.filter is_frame (fst (StreamHandler c resp)))
   <= length (List.filter may_render (observed (ClientGone c) script)))%nat.
Proof.
  intros Hs. rewrite (StreamHandler_run c resp cli input script Hs). cbn [fst].
  cbn [List.filter is_frame]. rewrite List.filter_app. cbn [List.filter is_frame].
  rewrite length_app. cbn [length]. rewrite Nat.add_0_r. apply frames_bound.
Qed.

(** X19.  When the two sums of deltas over the events pulled fit in a Go
    [int], the prompt and completion counters returned are exactly these
    sums, whatever the intermediate values. *)
Theorem StreamHandler_usage_exact c resp cli input script :
  obtains_stream c cli input script ->
  int_fits (sum_tokens anthropic.InputTokens (observed (ClientGone c) script)) ->
  int_fits (sum_tokens anthropic.OutputTokens (observed (ClientGone c) script)) ->
  snd (StreamHandler c resp) =
    Returned None
      (Some {| relaymodel.PromptTokens :=
                 sum_tokens anthropic.InputTokens (observed (ClientGone c) script);
               relaymodel.CompletionTokens :=
                 sum_tokens anthropic.OutputTokens (observed (ClientGone c) script);
               relaymodel.TotalTokens := 0 |}).
Proof.
  intros Hs Hin Hout. rewrite (StreamHandler_usage c resp cli input script Hs).
  unfold accumulated. now rewrite !int_wrap_fits.
Qed.

(** X20.  A content event the loop pulls, whose stamped chunk marshals, is
    rendered: its frame, stamped with the identifier in force, is in the
    trace. *)
Theorem content_event_rendered c resp cli input pre bytes post claudeResp response jsonStr :
  obtains_stream c cli input (pre ++ ResponseStreamMemberChunk bytes :: post) ->
  Forall (fun e => keeps_open e = true) pre ->
  client_stays (ClientGone c) (length pre) ->
  json_Decode_StreamResponse bytes = inr claudeResp ->
  StreamResponseClaude2OpenAI claudeResp = (Some response, None) ->
  json_Marshal_Chunk {| openai.Id := captured_id pre;
                        openai.Model := c_GetString c CtxKeyOriginModel;
                        openai.Created := helper_GetTimestamp;
                        openai.Rest := openai.Rest response |} = inr jsonStr ->
  In (RenderChunk {| openai.Id := captured_id pre;
                     openai.Model := c_GetString c CtxKeyOriginModel;
                     openai.Created := helper_GetTimestamp;
                     openai.Rest := openai.Rest response |} jsonStr)
     (fst (StreamHandler c resp)).
Proof.
  intros Hs Hall Hstay Hd Hc Hm.
  rewrite (StreamHandler_run c resp cli input _ Hs). cbn [fst].
  set (st0 := {| usage := relaymodel.Usage_zero; id := "" |}).
  rewrite (pump_split c helper_GetTimestamp pre _ (ClientGone c) st0 Hall)
    by (destruct (ClientGone c); cbn in Hstay |- *; [lia|exact I]).
  rewrite c_Stream_cons
    by (destruct (ClientGone c) as [g|]; cbn in Hstay |- *; [intros [=]; lia|discriminate]).
  pose proof (pump_prefix_id c helper_GetTimestamp pre st0 Hall) as Hid.
  cbn [id st0] in Hid. fold (captured_id pre) in Hid.
  cbn [step]. rewrite Hd, Hc, Hid, Hm.
  destruct (c_Stream c helper_GetTimestamp _ post _) as [fx' st'']. cbn [fst].
  right; right. apply in_or_app. left. apply in_or_app. right. left. reflexivity.
Qed.

(** X21.  A nil member of the union (or a member type the switch does not
    list) ends the loop like an unknown tag: one line is printed, no
    terminator is written, the stream is closed and the usage accumulated
    over the events before is returned. *)
Theorem StreamHandler_nil_member c resp cli input pre post :
  obtains_stream c cli input (pre ++ OtherMember :: post) ->
  Forall (fun e => keeps_open e = true) pre ->
  client_stays (ClientGone c) (length pre) ->
  StreamHandler c resp =
    (Call_InvokeModelWithResponseStream cli input
       :: Writer_Header_Set "Content-Type" "text/event-stream"
       :: fst (pump_prefix c helper_GetTimestamp pre
                           {| usage := relaymodel.Usage_zero; id := "" |})
       ++ [Println ["union is nil or unknown type"]; Stream_Close],
     Returned None (Some (accumulated pre)))
  /\ ~ In RenderDone (fst (StreamHandler c resp)).
Proof.
  intros Hs Hall Hstay.
  rewrite (StreamHandler_run c resp cli input _ Hs). cbn [fst snd].
  set (st0 := {| usage := relaymodel.Usage_zero; id := "" |}).
  rewrite (pump_split c helper_GetTimestamp pre (OtherMember :: post) (ClientGone c) st0 Hall)
    by (destruct (ClientGone c); cbn in Hstay |- *; [lia|exact I]).
  rewrite c_Stream_cons
    by (destruct (ClientGone c) as [g|]; cbn in Hstay |- *; [intros [=]; lia|discriminate]).
  cbn [step fst snd]. rewrite (pump_prefix_usage c helper_GetTimestamp pre "" Hall).
  split; [now rewrite <- app_assoc|].
  intros [Hin|[Hin|Hin]]; try discriminate Hin.
  rewrite <- app_assoc in Hin. apply in_app_or in Hin. destruct Hin as [Hin|Hin].
  - pose proof (pump_prefix_no_done c helper_GetTimestamp pre st0) as Hno.
    rewrite List.Forall_forall in Hno. exact (Hno _ Hin eq_refl).
  - destruct Hin as [Hin|[Hin|[]]]; discriminate Hin.
Qed.

(** X22.  The loop reads nothing after an event that ends it: its effects
    and the variables it leaves are the same whatever events would have
    followed. *)
Theorem loop_ignores_rest c createdTime event post post' : forall pre gone st,
  keeps_open event = false ->
  c_Stream c createdTime gone (pre ++ event :: post) st
  = c_Stream c createdTime gone (pre ++ event :: post') st.
Proof.
  induction pre as [|e pre IH]; intros gone st Hk.
  - cbn [app]. destruct (decide (gone = Some O)) as [->|Hg]; [now rewrite !c_Stream_gone|].
    rewrite !c_Stream_cons by assumption.
    pose proof (step_keepOpen c createdTime st event) as Hko. rewrite Hk in Hko.
    destruct (step c createdTime st (Some event)) as [[st' fx] keepOpen]. cbn in Hko.
    now subst keepOpen.
  - cbn [app]. destruct (decide (gone = Some O)) as [->|Hg]; [now rewrite !c_Stream_gone|].
    rewrite !c_Stream_cons by assumption.
    destruct (step c createdTime st (Some e)) as [[st' fx] keepOpen].
    destruct keepOpen; [|reflexivity]. now rewrite (IH (Nat.pred <$> gone) st' Hk).
Qed.

End Handlers.

(** *** Runs on the sample instantiation *)

#[local] Existing Instance decls.

Lemma sample_stream (gone : option nat) (script : list ResponseStream) :
  obtains_stream (X := world script) (context good_key "claude-2.1" gone)
                 client stream_input script.
Proof.
  split; [|repeat split; reflexivity].
  exists {| Key := good_key; BaseURL := Some "us-east-1" |}, "hello",
         (@Build_Request decls "bedrock-2023-05-31" "hello").
  repeat split; reflexivity.
Defined.

(** [newAwsClient_characterised] on the sample key. *)
Lemma newAwsClient_characterised_witness :
  newAwsClient {| Key := good_key; BaseURL := Some "us-east-1" |} = Val (Some client, None).
Proof.
  apply (proj2 (newAwsClient_characterised {| Key := good_key; BaseURL := Some "us-east-1" |}
                  client)).
  repeat split; reflexivity.
Defined.

(** [nil_region_panics] on a channel without region. *)
Lemma nil_region_panics_witness :
  c_Get regionless_ctx CtxKeyChannel = Some (any_Channel regionless_channel)
  /\ occurrences newline (Key regionless_channel) = 1%nat
  /\ BaseURL regionless_channel = None
  /\ newAwsClient regionless_channel = Panics
  /\ Handler (X := world []) regionless_ctx response 3 "my-model" = ([], Panicked)
  /\ StreamHandler (X := world []) regionless_ctx response = ([], Panicked).
Proof.
  split; [reflexivity|]. split; [reflexivity|]. split; [reflexivity|].
  exact (nil_region_panics (X := world []) regionless_ctx response 3 "my-model"
           regionless_channel eq_refl eq_refl eq_refl).
Defined.

(** [awsModelID_injective] on a name of the table. *)
Lemma awsModelID_injective_witness :
  awsModelID "claude-2.1" = ("anthropic.claude-v2:1", None)
  /\ "claude-2.1" = "claude-2.1".
Proof.
  split; [reflexivity|].
  exact (awsModelID_injective "claude-2.1" "claude-2.1" "anthropic.claude-v2:1" eq_refl eq_refl).
Defined.

(** [missing_channel_rejected] on the empty context. *)
Lemma missing_channel_rejected_witness :
  c_Get empty_ctx CtxKeyChannel = None
  /\ Handler (X := world []) empty_ctx response 3 "my-model"
     = ([], Returned (Some (wrapErr (X := world []) (errors_New "channel not found"))) None)
  /\ StreamHandler (X := world []) empty_ctx response
     = ([], Returned (Some (wrapErr (X := world []) (errors_New "channel not found"))) None).
Proof.
  split; [reflexivity|].
  exact (missing_channel_rejected (X := world []) empty_ctx response 3 "my-model" eq_refl).
Defined.

(** [missing_request_rejected] on a context without converted request. *)
Lemma missing_request_rejected_witness :
  c_Get no_request_ctx CtxKeyConvertedRequest = None
  /\ Handler (X := world []) no_request_ctx response 3 "my-model"
     = ([], Returned (Some (wrapErr (X := world []) (errors_New "request not found"))) None)
  /\ StreamHandler (X := world []) no_request_ctx response
     = ([], Returned (Some (wrapErr (X := world []) (errors_New "request not found"))) None).
Proof.
  split; [reflexivity|].
  exact (missing_request_rejected (X := world []) no_request_ctx response 3 "my-model"
           {| Key := good_key; BaseURL := Some "us-east-1" |} client "anthropic.claude-v2:1"
           eq_refl eq_refl eq_refl eq_refl).
Defined.

(** [provider_call_arguments] on the call of a unary run. *)
Lemma provider_call_arguments_witness :
  In (Call_InvokeModel client unary_input)
     (fst (Handler (X := world []) ctx response 3 "my-model"))
  /\ table_lookup (c_GetString ctx CtxKeyRequestModel) awsModelTable
     = Some (ModelId unary_input)
  /\ exists channel,
       c_Get ctx CtxKeyChannel = Some (any_Channel channel)
       /\ BaseURL channel = Some (Region client)
       /\ Key channel = AccessKeyID client +:+ String newline (SecretAccessKey client).
Proof.
  assert (Hin : In (Call_InvokeModel client unary_input)
                   (fst (Handler (X := world []) ctx response 3 "my-model")))
    by (vm_compute; left; reflexivity).
  split; [exact Hin|].
  destruct (proj1 (provider_call_arguments (X := world []) ctx response 3 "my-model" client)
                  unary_input Hin) as (Htable & _ & _ & Hchannel).
  split; assumption.
Defined.

(** [StreamHandler_client_gone] on a client that leaves after two of the
    four events of [script_plain]. *)
Lemma StreamHandler_client_gone_witness :
  obtains_stream (X := world script_plain) leaving_ctx client stream_input script_plain
  /\ ClientGone leaving_ctx = Some 2%nat
  /\ (2 <= length script_plain)%nat
  /\ ~ In RenderDone (fst (StreamHandler (X := world script_plain) leaving_ctx response))
  /\ (length (List.filter is_frame
                (fst (StreamHandler (X := world script_plain) leaving_ctx response))) <= 2)%nat.
Proof.
  assert (Hlen : (2 <= length script_plain)%nat) by (cbn; lia).
  split; [apply sample_stream|]. split; [reflexivity|]. split; [exact Hlen|].
  exact (StreamHandler_client_gone (X := world script_plain) leaving_ctx response client
           stream_input script_plain 2%nat (sample_stream (Some 2%nat) script_plain)
           eq_refl Hlen).
Defined.

(** [StreamHandler_frames_bound] on [script_message]: two frames for four
    events, two of which carry metadata. *)
Lemma StreamHandler_frames_bound_witness :
  obtains_stream (X := world script_message) ctx client stream_input script_message
  /\ (length (List.filter is_frame
                (fst (StreamHandler (X := world script_message) ctx response)))
      <= length (List.filter (may_render (X := world script_message))
                   (observed (X := world script_message) (ClientGone ctx) script_message)))%nat.
Proof.
  split; [apply sample_stream|].
  exact (StreamHandler_frames_bound (X := world script_message) ctx response client
           stream_input script_message (sample_stream None script_message)).
Defined.

(** [StreamHandler_usage_exact] on [script_message]: 10 + 0 input tokens and
    1 + 7 output tokens. *)
Lemma StreamHandler_usage_exact_witness :
  obtains_stream (X := world script_message) ctx client stream_input script_message
  /\ snd (StreamHandler (X := world script_message) ctx response)
     = Returned None (Some {| relaymodel.PromptTokens := 10;
                              relaymodel.CompletionTokens := 8;
                              relaymodel.TotalTokens := 0 |}).
Proof.
  split; [apply sample_stream|].
  assert (Hfits : forall z, z = 10 \/ z = 8 -> int_fits z)
    by (intros z [->| ->]; unfold int_fits, int_min, int_max; cbn; lia).
  exact (StreamHandler_usage_exact (X := world script_message) ctx response client
           stream_input script_message (sample_stream None script_message)
           (Hfits 10 (or_introl eq_refl)) (Hfits 8 (or_intror eq_refl))).
Defined.

(** [content_event_rendered] on the first content event of [script_plain]. *)
Lemma content_event_rendered_witness :
  obtains_stream (X := world script_plain) ctx client stream_input script_plain
  /\ In (RenderChunk (frame "chatcmpl-msg_1" "Hel") "{chatcmpl-msg_1,my-model,Hel}")
        (fst (StreamHandler (X := world script_plain) ctx response)).
Proof.
  split; [apply sample_stream|].
  exact (content_event_rendered (X := world script_plain) ctx response client stream_input
           [metadata Byte.x0a Byte.x05 "msg_1"] (list_byte_of_string "Hel")
           [content "lo"; content "!"] (list_byte_of_string "Hel")
           {| openai.Id := ""; openai.Created := 0; openai.Model := ""; openai.Rest := "Hel" |}
           "{chatcmpl-msg_1,my-model,Hel}"
           (sample_stream None script_plain)
           ltac:(repeat constructor) I eq_refl eq_refl eq_refl).
Defined.

(** [StreamHandler_nil_member] on [script_nil]. *)
Lemma StreamHandler_nil_member_witness :
  obtains_stream (X := world script_nil) ctx client stream_input script_nil
  /\ snd (StreamHandler (X := world script_nil) ctx response)
     = Returned None (Some (accumulated (X := world script_nil) script_broken_pre))
  /\ ~ In RenderDone (fst (StreamHandler (X := world script_nil) ctx response)).
Proof.
  split; [apply sample_stream|].
  destruct (StreamHandler_nil_member (X := world script_nil) ctx response client stream_input
              script_broken_pre script_broken_post (sample_stream None script_nil)
              ltac:(repeat constructor) I) as [Hrun Hno].
  split; [now rewrite Hrun|exact Hno].
Defined.

(** [loop_ignores_rest] on an unknown tag. *)
Lemma loop_ignores_rest_witness :
  keeps_open (X := world []) (UnknownUnionMember "x") = false
  /\ c_Stream (X := world []) ctx 1700000000 None
              ([content "Hi"] ++ UnknownUnionMember "x" :: [content "late"]) start
     = c_Stream (X := world []) ctx 1700000000 None
                ([content "Hi"] ++ UnknownUnionMember "x" :: []) start.
Proof.
  split; [reflexivity|].
  exact (loop_ignores_rest (X := world []) ctx 1700000000 (UnknownUnionMember "x")
           [content "late"] [] [content "Hi"] None start eq_refl).
Defined.

End aws_more.
